(** * The chart windowing and zoom logic of [frontend/src/App.tsx]

    A shallow embedding of the [formatDate] helper and of the [HomePage]
    component: its two pieces of state ([windowStart], [zoomRange]), the
    values it derives from them on every render ([months], [totalWindows],
    [currentWindow], [visibleMonths], [visibleData], [yMin], [yMax]) and its
    event handlers (the effect on [result], the two arrow buttons and the
    chart's [onClick]).

    JavaScript numbers that hold prices are IEEE binary64 values and are
    modelled by Rocq's primitive floats.  Numbers that hold array indices and
    lengths are integers far below 2^53, where JavaScript arithmetic is exact;
    they are modelled by [Z] ([findIndex] returns [-1], [slice] accepts
    negative indices).  Strings are modelled by [string]; the dates of the
    series are ASCII, for which code units and characters coincide.

    The chart and the two arrows are rendered only while the series is not
    empty; the handlers are modelled on every state, which includes those. *)

From Stdlib Require Import ZArith Lia Bool Ascii PrimFloat FloatOps FloatAxioms.
From stdpp Require Import base list strings.

Local Open Scope Z_scope.

(** ** The JavaScript built-ins the component calls *)

Module JS.

(** *** Strings *)

(** [s.split(sep)] for a one-character separator. *)
Fixpoint split (sep : ascii) (s : string) : list string :=
  match s with
  | EmptyString => [EmptyString]
  | String c s' =>
      if Ascii.eqb c sep then EmptyString :: split sep s'
      else match split sep s' with
           | [] => [String c EmptyString]
           | p :: ps => String c p :: ps
           end
  end.

(** [s.slice(0, n)] on a string: its first [n] characters, or all of it. *)
Fixpoint str_prefix (n : nat) (s : string) : string :=
  match n, s with
  | S n', String c s' => String c (str_prefix n' s')
  | _, _ => EmptyString
  end.

(** Truthiness of a string: only the empty string is falsy. *)
Definition truthy_str (s : string) : bool := negb (String.eqb s "").

(** [parts[i]] inside a template literal: a missing element prints as
    ["undefined"]. *)
Definition part (parts : list string) (i : nat) : string :=
  default "undefined" (parts !! i).

(** *** Arrays *)

Section Arrays.
Context {A : Type}.

Definition len (l : list A) : Z := Z.of_nat (length l).

(** The relative-index rule of [Array.prototype.slice]: a negative index
    counts from the end, and every index is clamped to [0, len]. *)
Definition rel_index (n k : Z) : Z :=
  if k <? 0 then Z.max (n + k) 0 else Z.min k n.

(** [l.slice(start, end)]. *)
Definition slice (l : list A) (start stop : Z) : list A :=
  let k := rel_index (len l) start in
  let final := rel_index (len l) stop in
  take (Z.to_nat (final - k)) (drop (Z.to_nat k) l).

(** [l.findIndex(p)]: the first index whose element satisfies [p], or -1. *)
Fixpoint findIndex_from (i : Z) (p : A -> bool) (l : list A) : Z :=
  match l with
  | [] => -1
  | x :: l' => if p x then i else findIndex_from (i + 1) p l'
  end.

Definition findIndex (p : A -> bool) (l : list A) : Z := findIndex_from 0 p l.

(** [l.filter(p)]. *)
Fixpoint filter (p : A -> bool) (l : list A) : list A :=
  match l with
  | [] => []
  | x :: l' => if p x then x :: filter p l' else filter p l'
  end.
End Arrays.

(** [l.includes(x)] on an array of strings. *)
Fixpoint includes (l : list string) (x : string) : bool :=
  match l with
  | [] => false
  | y :: l' => String.eqb y x || includes l' x
  end.

(** [Array.from(new Set(l))]: a set keeps its elements in insertion order,
    and adding an element it already holds changes nothing. *)
Fixpoint Set_add_all (seen : list string) (l : list string) : list string :=
  match l with
  | [] => seen
  | x :: l' => Set_add_all (if includes seen x then seen else seen ++ [x]) l'
  end.

Definition Array_from_Set (l : list string) : list string := Set_add_all [] l.

(** *** Numbers *)

Definition number := float.

Definition isFinite (x : number) : bool := PrimFloat.is_finite x.

Definition is_neg_zero (x : number) : bool :=
  PrimFloat.is_zero x && PrimFloat.get_sign x.

(** One step of [Math.min]: NaN is contagious and -0 is below +0. *)
Definition min2 (a b : number) : number :=
  if PrimFloat.is_nan a || PrimFloat.is_nan b then PrimFloat.nan
  else if PrimFloat.ltb b a then b
  else if PrimFloat.eqb b a && is_neg_zero b then b
  else a.

Definition max2 (a b : number) : number :=
  if PrimFloat.is_nan a || PrimFloat.is_nan b then PrimFloat.nan
  else if PrimFloat.ltb a b then b
  else if PrimFloat.eqb b a && is_neg_zero a then b
  else a.

(** [Math.min(...xs)] and [Math.max(...xs)]; with no argument they are
    [Infinity] and [-Infinity]. *)
Definition Math_min (xs : list number) : number :=
  fold_left min2 xs PrimFloat.infinity.

Definition Math_max (xs : list number) : number :=
  fold_left max2 xs PrimFloat.neg_infinity.

(** 2^52: from there on every binary64 value is an integer. *)
Definition two52 : number := 4503599627370496%float.

(** [Math.floor]. Below 2^52, adding and subtracting 2^52 rounds a
    non-negative value to an integer, which is then moved to the right
    side of the argument. Zeros, NaN, the infinities and values from 2^52
    on are returned as they are. *)
Definition round_int (a : number) : number :=
  PrimFloat.sub (PrimFloat.add a two52) two52.

Definition Math_floor (x : number) : number :=
  if PrimFloat.is_nan x || PrimFloat.is_zero x then x
  else if PrimFloat.leb two52 (PrimFloat.abs x) then x
  else if PrimFloat.ltb x PrimFloat.zero then
    let a := PrimFloat.abs x in
    let r := round_int a in
    PrimFloat.opp (if PrimFloat.ltb r a then PrimFloat.add r PrimFloat.one else r)
  else
    let r := round_int x in
    if PrimFloat.ltb x r then PrimFloat.sub r PrimFloat.one else r.

(** [Math.ceil(x)] is [-Math.floor(-x)], signed zeros included. *)
Definition Math_ceil (x : number) : number :=
  PrimFloat.opp (Math_floor (PrimFloat.opp x)).

End JS.

(** ** [formatDate] *)

(** Helper to format date from yyyy-mm-dd to mm/dd/yyyy. *)
Definition formatDate (dateStr : string) : string :=
  if negb (JS.truthy_str dateStr) then ""
  else
    let parts := JS.split "-" dateStr in
    if negb (JS.len parts =? 3) then dateStr
    else
      let y := JS.part parts 0 in
      let m := JS.part parts 1 in
      let d := JS.part parts 2 in
      m +:+ "/" +:+ d +:+ "/" +:+ y.

(** ** The data the component receives *)

Record HistoricalDataPoint := {
  date : string;
  actual : JS.number;
  predicted : JS.number
}.

(** Of [PredictionResult] the chart logic reads the optional [historical]
    field only. *)
Record PredictionResult := {
  historical_opt : option (list HistoricalDataPoint)
}.

(** The value of the [zoomRange] state when it is not [null]. *)
Record ZoomRange := {
  start : Z;
  stop : Z   (* the field [end] *)
}.

(** The [HomePage] component between two events: its [result] prop and its
    two pieces of state. *)
Record HomePage := {
  result : option PredictionResult;
  windowStart : Z;
  zoomRange : option ZoomRange
}.

(** The argument of the chart's [onClick]: [None] is a missing event object,
    [activeLabel = None] an event without an active label. *)
Record ChartEvent := {
  activeLabel : option string
}.

(** ** What [HomePage] computes on each render *)

Definition monthsToShow : Z := 4.

(** [result?.historical || []] *)
Definition historical_of (r : option PredictionResult) : list HistoricalDataPoint :=
  match r with
  | Some r' => default [] (historical_opt r')
  | None => []
  end.

(** [d.date.slice(0, 7)] *)
Definition monthKey (d : HistoricalDataPoint) : string := JS.str_prefix 7 (date d).

Definition months_of (h : list HistoricalDataPoint) : list string :=
  JS.Array_from_Set (map monthKey h).

Definition totalWindows_of (months : list string) : Z :=
  Z.max 1 (JS.len months - monthsToShow + 1).

Definition defaultWindow_of (months : list string) : Z :=
  Z.max 0 (JS.len months - monthsToShow).

Definition historical (s : HomePage) : list HistoricalDataPoint := historical_of (result s).
Definition months (s : HomePage) : list string := months_of (historical s).
Definition totalWindows (s : HomePage) : Z := totalWindows_of (months s).
Definition defaultWindow (s : HomePage) : Z := defaultWindow_of (months s).

Definition currentWindow (s : HomePage) : Z :=
  Z.min (windowStart s) (totalWindows s - 1).

Definition visibleMonths (s : HomePage) : list string :=
  JS.slice (months s) (currentWindow s) (currentWindow s + monthsToShow).

Definition windowedData (s : HomePage) : list HistoricalDataPoint :=
  JS.filter (fun d => JS.includes (visibleMonths s) (monthKey d)) (historical s).

Definition visibleData (s : HomePage) : list HistoricalDataPoint :=
  match zoomRange s with
  | Some r =>
      if (start r >=? 0) && (stop r >? start r)
      then JS.slice (historical s) (start r) (stop r)
      else windowedData s
  | None => windowedData s
  end.

(** The binary64 value that the literal [0.05] denotes. *)
Definition margin_ratio : JS.number := 0x1.999999999999ap-5%float.

Definition rawMin (data : list HistoricalDataPoint) : JS.number :=
  JS.Math_min (map (fun d => JS.Math_min [actual d; predicted d]) data).

Definition rawMax (data : list HistoricalDataPoint) : JS.number :=
  JS.Math_max (map (fun d => JS.Math_max [actual d; predicted d]) data).

(** The final values of [yMin] and [yMax]. *)
Definition yBounds (data : list HistoricalDataPoint) (zoom : option ZoomRange)
  : JS.number * JS.number :=
  let yMin := rawMin data in
  let yMax := rawMax data in
  if JS.isFinite yMin && JS.isFinite yMax then
    match zoom with
    | Some _ =>
        let yRange := PrimFloat.sub yMax yMin in
        (PrimFloat.sub yMin (PrimFloat.mul yRange margin_ratio),
         PrimFloat.add yMax (PrimFloat.mul yRange margin_ratio))
    | None =>
        (JS.Math_floor (PrimFloat.sub yMin 15%float),
         JS.Math_ceil (PrimFloat.add yMax 15%float))
    end
  else (yMin, yMax).

(** The [domain] prop handed to [YAxis]. The prop is optional: [None] stands
    for leaving it [undefined], which asks the chart for automatic scaling;
    the component passes the array [[yMin, yMax]]. *)
Definition YAxis_domain (data : list HistoricalDataPoint) (zoom : option ZoomRange)
  : option (JS.number * JS.number) :=
  Some (yBounds data zoom).

Definition axisDomain (s : HomePage) : option (JS.number * JS.number) :=
  YAxis_domain (visibleData s) (zoomRange s).

(** ** Event handlers *)

(** A new [result] prop, followed by
    [React.useEffect(() => { setWindowStart(defaultWindow); }, [result])]
    run with the [defaultWindow] of the render that received [r]. React runs
    a pending effect before it handles the next click, so the two are one
    transition. The effect calls no other setter. *)
Definition receive_result (s : HomePage) (r : option PredictionResult) : HomePage :=
  {| result := r;
     windowStart := defaultWindow_of (months_of (historical_of r));
     zoomRange := zoomRange s |}.

(** The component as mounted with a first [result]: both states at their
    initial value, then the effect. *)
Definition mount (r : option PredictionResult) : HomePage :=
  receive_result {| result := r; windowStart := 0; zoomRange := None |} r.

(** Left arrow: [setWindowStart(Math.max(0, currentWindow - 1))]. *)
Definition scroll_left (s : HomePage) : HomePage :=
  {| result := result s;
     windowStart := Z.max 0 (currentWindow s - 1);
     zoomRange := zoomRange s |}.

(** Right arrow: [setWindowStart(Math.min(totalWindows - 1, currentWindow + 1))]. *)
Definition scroll_right (s : HomePage) : HomePage :=
  {| result := result s;
     windowStart := Z.min (totalWindows s - 1) (currentWindow s + 1);
     zoomRange := zoomRange s |}.

(** The label the handler goes on with: [!e || !e.activeLabel] returns early. *)
Definition clicked_label (e : option ChartEvent) : option string :=
  match e with
  | Some ev =>
      match activeLabel ev with
      | Some l => if JS.truthy_str l then Some l else None
      | None => None
      end
  | None => None
  end.

(** The zoom-in branch once [idx] is known. *)
Definition zoom_around (h : list HistoricalDataPoint) (idx : Z) : ZoomRange :=
  let start0 := Z.max 0 (idx - 3) in
  let end0 := Z.min (JS.len h) (start0 + 7) in
  let start1 := if end0 - start0 <? 7 then Z.max 0 (end0 - 7) else start0 in
  {| start := start1; stop := end0 |}.

(** The chart's [onClick]: the argument of the [setZoomRange] call it makes,
    or [None] when it returns without calling it. *)
Definition onClick (s : HomePage) (e : option ChartEvent) : option (option ZoomRange) :=
  match clicked_label e with
  | None => None
  | Some label =>
      match zoomRange s with
      | None =>
          let idx :=
            JS.findIndex (fun d => String.eqb (formatDate (date d)) label) (historical s) in
          if idx =? -1 then None
          else Some (Some (zoom_around (historical s) idx))
      | Some _ => Some None
      end
  end.

Definition click (s : HomePage) (e : option ChartEvent) : HomePage :=
  match onClick s e with
  | Some z => {| result := result s; windowStart := windowStart s; zoomRange := z |}
  | None => s
  end.

(** ** The component as a transition system *)

Inductive Event :=
| NewResult (r : option PredictionResult)
| LeftArrow
| RightArrow
| ChartClick (e : option ChartEvent).

Definition step (s : HomePage) (ev : Event) : HomePage :=
  match ev with
  | NewResult r => receive_result s r
  | LeftArrow => scroll_left s
  | RightArrow => scroll_right s
  | ChartClick e => click s e
  end.

Inductive Reachable : HomePage -> Prop :=
| reach_mount r : Reachable (mount r)
| reach_step s ev : Reachable s -> Reachable (step s ev).

(** ** Vocabulary of the statements *)

(** Number of occurrences of a character. *)
Fixpoint occurrences (c : ascii) (s : string) : nat :=
  match s with
  | EmptyString => O
  | String a s' => (if Ascii.eqb a c then 1 else 0)%nat + occurrences c s'
  end.

(** [parts.join(sep)] *)
Fixpoint join (sep : ascii) (parts : list string) : string :=
  match parts with
  | [] => ""
  | [p] => p
  | p :: ps => p +:+ String sep (join sep ps)
  end.

(** The window start always names an existing window. *)
Definition window_ok (s : HomePage) : Prop :=
  0 <= windowStart s <= totalWindows s - 1.

(** A zoom range, when there is one, passes the guard of [visibleData]. *)
Definition zoom_ok (s : HomePage) : Prop :=
  forall r, zoomRange s = Some r -> 0 <= start r < stop r.

(** ** A small series used to run the component *)

Module Sample.
Definition point (d : string) (a p : float) : HistoricalDataPoint :=
  {| date := d; actual := a; predicted := p |}.

(** Nine trading days over seven months. *)
Definition series : list HistoricalDataPoint :=
  [ point "2024-01-02" 100 101; point "2024-01-03" 102 99;
    point "2024-02-01" 103 104; point "2024-03-01" 105 106;
    point "2024-04-01" 107 108; point "2024-05-01" 109 110;
    point "2024-06-03" 111 112; point "2024-06-04" 113 114;
    point "2024-07-01" 115 116.5 ].

Definition response : option PredictionResult :=
  Some {| historical_opt := Some series |}.

(** Its first three trading days, over two months. *)
Definition short_response : option PredictionResult :=
  Some {| historical_opt := Some (take 3 series) |}.

Definition click_on (label : string) : option ChartEvent :=
  Some {| activeLabel := Some label |}.

(** A click that carries no active label. *)
Definition click_off : option ChartEvent :=
  Some {| activeLabel := None |}.

(** Mounted on [response], then zoomed in on the last day. *)
Definition zoomed : HomePage := click (mount response) (click_on "07/01/2024").
End Sample.

(** ** What else the component renders and a few more notions *)

(** The chart and its two arrows are rendered when
    [result && result.historical && result.historical.length > 0]. *)
Definition chartShown (s : HomePage) : bool :=
  match result s with
  | Some r =>
      match historical_opt r with
      | Some h => JS.len h >? 0
      | None => false
      end
  | None => false
  end.

(** [disabled={currentWindow === 0}] on the left arrow. *)
Definition leftDisabled (s : HomePage) : bool := currentWindow s =? 0.

(** [disabled={currentWindow >= totalWindows - 1}] on the right arrow. *)
Definition rightDisabled (s : HomePage) : bool :=
  currentWindow s >=? totalWindows s - 1.

(** The same event [n] times in a row. *)
Fixpoint press (n : nat) (ev : Event) (s : HomePage) : HomePage :=
  match n with
  | O => s
  | S n' => press n' ev (step s ev)
  end.

(** A zoom range, when there is one, spans at most seven points. *)
Definition zoom_week (s : HomePage) : Prop :=
  forall r, zoomRange s = Some r -> stop r - start r <= 7.

(** A date made of three dash-separated components whose month and day
    hold no slash, as ["2024-03-07"]. *)
Definition dashed_date (s : string) : Prop :=
  exists y m d,
    JS.split "-" s = [y; m; d] /\ occurrences "/" m = O /\ occurrences "/" d = O.

(** ** Renders that precede the effect *)

(** The render that receives a new [result]: the component function runs
    with the new prop and with the state as it was; the effect on [result]
    runs only after that render. *)
Definition render_before_effect (s : HomePage) (r : option PredictionResult) : HomePage :=
  {| result := r; windowStart := windowStart s; zoomRange := zoomRange s |}.

(** The very first render, both states at their initial value. *)
Definition first_render (r : option PredictionResult) : HomePage :=
  {| result := r; windowStart := 0; zoomRange := None |}.

(** Every state the component function is evaluated in: the states between
    two events and the renders that precede an effect. *)
Inductive Rendered : HomePage -> Prop :=
| rendered_settled s : Reachable s -> Rendered s
| rendered_first r : Rendered (first_render r)
| rendered_before_effect s r : Reachable s -> Rendered (render_before_effect s r).

(** * Properties *)

(** ** The built-ins on a few inputs *)

Example split_examples :
  JS.split "-" "2024-03-07" = ["2024"; "03"; "07"] /\
  JS.split "-" "" = [""] /\
  JS.split "-" "a--b" = ["a"; ""; "b"] /\
  JS.str_prefix 7 "2024-03-07" = "2024-03" /\
  JS.str_prefix 7 "2024" = "2024".
Proof. repeat split; reflexivity. Qed.

Example array_examples :
  JS.slice [10; 20; 30; 40; 50] 1 3 = [20; 30] /\
  JS.slice [10; 20; 30; 40; 50] 3 9 = [40; 50] /\
  JS.slice [10; 20; 30; 40; 50] (-2) 5 = [40; 50] /\
  JS.slice [10; 20; 30; 40; 50] 3 2 = [] /\
  JS.findIndex (Z.eqb 30) [10; 20; 30; 30] = 2 /\
  JS.findIndex (Z.eqb 60) [10; 20; 30; 30] = -1 /\
  JS.Array_from_Set ["b"; "a"; "b"; "c"; "a"] = ["b"; "a"; "c"].
Proof. repeat split; reflexivity. Qed.

Example number_examples :
  JS.Math_min [] = PrimFloat.infinity /\
  JS.Math_max [] = PrimFloat.neg_infinity /\
  JS.Math_min [3; 1.5; 2]%float = 1.5%float /\
  JS.Math_max [3; 1.5; 7]%float = 7%float /\
  JS.Math_min [1%float; PrimFloat.nan; 2%float] = PrimFloat.nan /\
  JS.Math_min [0; -0]%float = (-0)%float /\
  JS.Math_max [-0; 0]%float = 0%float /\
  JS.Math_floor 2.5%float = 2%float /\
  JS.Math_floor (-2.5)%float = (-3)%float /\
  JS.Math_floor 0.5%float = 0%float /\
  JS.Math_floor (-0)%float = (-0)%float /\
  JS.Math_floor 4503599627370495.5%float = 4503599627370495%float /\
  JS.Math_ceil 2.5%float = 3%float /\
  JS.Math_ceil (-2.5)%float = (-2)%float /\
  JS.Math_ceil (-0.5)%float = (-0)%float /\
  JS.Math_ceil 7%float = 7%float /\
  JS.isFinite PrimFloat.infinity = false /\
  JS.isFinite PrimFloat.nan = false /\
  JS.isFinite 7%float = true.
Proof. repeat split; vm_compute; reflexivity. Qed.

(** ** Strings: [split] and [formatDate] *)

Lemma split_length sep s : length (JS.split sep s) = S (occurrences sep s).
Proof.
  induction s as [|a s IH]; simpl; [reflexivity|].
  destruct (Ascii.eqb a sep); simpl.
  - now rewrite IH.
  - destruct (JS.split sep s); simpl in *; lia.
Qed.

Lemma split_no_sep sep s : occurrences sep s = O -> JS.split sep s = [s].
Proof.
  induction s as [|a s IH]; simpl; [reflexivity|].
  destruct (Ascii.eqb a sep); simpl; [discriminate|].
  intros H. now rewrite IH.
Qed.

Lemma split_app sep a b :
  occurrences sep a = O ->
  JS.split sep (a +:+ String sep b) = a :: JS.split sep b.
Proof.
  induction a as [|c a IH]; simpl.
  - intros _. now rewrite Ascii.eqb_refl.
  - destruct (Ascii.eqb c sep); simpl; [discriminate|].
    intros H. now rewrite IH.
Qed.

Lemma split_join sep s : join sep (JS.split sep s) = s.
Proof.
  induction s as [|a s IH]; simpl; [reflexivity|].
  destruct (Ascii.eqb a sep) eqn:E.
  - apply Ascii.eqb_eq in E. subst a.
    pose proof (split_length sep s) as L.
    destruct (JS.split sep s) as [|p ps]; [discriminate|].
    simpl. simpl in IH. now rewrite IH.
  - pose proof (split_length sep s) as L.
    destruct (JS.split sep s) as [|p ps]; [discriminate|].
    destruct ps as [|q ps]; simpl in *; now subst s.
Qed.

Lemma split_parts sep s : Forall (fun p => occurrences sep p = O) (JS.split sep s).
Proof.
  induction s as [|a s IH]; simpl.
  - now constructor.
  - destruct (Ascii.eqb a sep) eqn:E.
    + now constructor.
    + destruct (JS.split sep s) as [|p ps].
      * constructor; [simpl; now rewrite E | constructor].
      * inversion IH; subst. constructor; [simpl; now rewrite E | assumption].
Qed.

(** A string has exactly three components when it has exactly two dashes,
    and it is then those components joined by dashes. *)
Lemma three_components s :
  occurrences "-" s = 2%nat <->
  exists y m d, JS.split "-" s = [y; m; d].
Proof.
  split.
  - intros H. pose proof (split_length "-" s) as L. rewrite H in L.
    destruct (JS.split "-" s) as [|y [|m [|d [|? ?]]]]; try discriminate.
    now exists y, m, d.
  - intros (y & m & d & H). pose proof (split_length "-" s) as L.
    rewrite H in L. simpl in L. lia.
Qed.

Lemma three_components_shape s y m d :
  JS.split "-" s = [y; m; d] ->
  s = y +:+ "-" +:+ m +:+ "-" +:+ d /\
  occurrences "-" y = O /\ occurrences "-" m = O /\ occurrences "-" d = O.
Proof.
  intros H. pose proof (split_join "-" s) as J. pose proof (split_parts "-" s) as P.
  rewrite H in J, P. simpl in J.
  rewrite !Forall_cons in P. destruct P as (Hy & Hm & Hd & _).
  repeat split; try assumption. now symmetry.
Qed.

Lemma formatDate_parts s y m d :
  JS.split "-" s = [y; m; d] -> formatDate s = m +:+ "/" +:+ d +:+ "/" +:+ y.
Proof.
  intros H. unfold formatDate. rewrite H.
  destruct s; [discriminate H|]. reflexivity.
Qed.

Lemma formatDate_fallback s :
  length (JS.split "-" s) <> 3%nat -> formatDate s = s.
Proof.
  intros H. unfold formatDate.
  destruct s as [|a s]; [reflexivity|].
  cbn [JS.truthy_str String.eqb negb].
  unfold JS.len.
  destruct (Z.eqb_spec (Z.of_nat (length (JS.split "-" (String a s)))) 3); [lia|].
  reflexivity.
Qed.

(** C9: a string made of exactly three dash-separated components [y], [m],
    [d] is formatted as [m/d/y]; every string that does not have exactly
    three dash-separated components (that is, exactly two dashes) is
    returned unchanged; [formatDate] is a total function, so no input raises
    an error. The two examples of the specification are included. *)
Theorem formatDate_spec (dateStr : string) :
  (forall y m d,
      occurrences "-" y = O -> occurrences "-" m = O -> occurrences "-" d = O ->
      dateStr = y +:+ "-" +:+ m +:+ "-" +:+ d ->
      formatDate dateStr = m +:+ "/" +:+ d +:+ "/" +:+ y) /\
  (forall y m d,
      JS.split "-" dateStr = [y; m; d] ->
      formatDate dateStr = m +:+ "/" +:+ d +:+ "/" +:+ y) /\
  (length (JS.split "-" dateStr) <> 3%nat -> formatDate dateStr = dateStr) /\
  (occurrences "-" dateStr <> 2%nat -> formatDate dateStr = dateStr) /\
  formatDate "2024-03-07" = "03/07/2024" /\
  formatDate "2024/03/07" = "2024/03/07".
Proof.
  split; [|split; [|split; [|split; [|split; reflexivity]]]].
  - intros y m d Hy Hm Hd ->. apply formatDate_parts.
    change (y +:+ "-" +:+ m +:+ "-" +:+ d)
      with (y +:+ String "-" (m +:+ String "-" d)).
    rewrite split_app by assumption. rewrite split_app by assumption.
    now rewrite split_no_sep.
  - apply formatDate_parts.
  - apply formatDate_fallback.
  - intros H. apply formatDate_fallback. rewrite split_length. lia.
Qed.

Lemma formatDate_spec_witness :
  formatDate "2024-03-07" = "03/07/2024" /\ formatDate "12-31" = "12-31".
Proof.
  split.
  - apply (proj1 (formatDate_spec "2024-03-07") "2024" "03" "07"); reflexivity.
  - apply (proj1 (proj2 (proj2 (proj2 (formatDate_spec "12-31"))))).
    vm_compute. discriminate.
Defined.

(** ** Arrays: [findIndex], [slice], [filter], [includes] *)

Section ArrayFacts.
Context {A : Type}.
Implicit Types (l : list A) (p : A -> bool).

Lemma findIndex_miss p l :
  JS.findIndex p l = -1 <-> Forall (fun x => p x = false) l.
Proof.
  unfold JS.findIndex.
  assert (G : forall j, 0 <= j ->
            JS.findIndex_from j p l = -1 <-> Forall (fun x => p x = false) l).
  { induction l as [|x l IH]; intros j Hj; simpl.
    - split; [constructor | reflexivity].
    - destruct (p x) eqn:E.
      + split; [lia|]. intros F. apply Forall_cons in F as [F _]. congruence.
      + rewrite IH by lia. rewrite Forall_cons. tauto. }
  now apply G.
Qed.

Lemma findIndex_hit p l idx :
  JS.findIndex p l = idx -> idx <> -1 ->
  0 <= idx < JS.len l /\
  exists x, l !! Z.to_nat idx = Some x /\ p x = true.
Proof.
  unfold JS.findIndex.
  assert (G : forall j, 0 <= j -> JS.findIndex_from j p l <> -1 ->
            j <= JS.findIndex_from j p l < j + JS.len l /\
            exists x, l !! Z.to_nat (JS.findIndex_from j p l - j) = Some x /\
                      p x = true).
  { induction l as [|x l IH]; intros j Hj; simpl; [congruence|].
    unfold JS.len in *. destruct (p x) eqn:E; intros Hne.
    - split; [cbn [length]; lia|]. exists x. now rewrite Z.sub_diag.
    - destruct (IH (j + 1) ltac:(lia) Hne) as [R (y & Hy & Py)].
      split; [cbn [length]; lia|]. exists y. split; [|assumption].
      replace (Z.to_nat (JS.findIndex_from (j + 1) p l - j))
        with (S (Z.to_nat (JS.findIndex_from (j + 1) p l - (j + 1)))) by lia.
      exact Hy. }
  intros <- Hne. destruct (G 0 ltac:(lia) Hne) as [R (x & Hx & Px)].
  split; [lia|]. exists x. now rewrite Z.sub_0_r in Hx.
Qed.

(** Within bounds, [slice] is the half-open segment [start, stop). *)
Lemma slice_segment l a b :
  0 <= a -> a <= b ->
  JS.slice l a b = take (Z.to_nat (b - a)) (drop (Z.to_nat a) l).
Proof.
  intros Ha Hab. unfold JS.slice, JS.rel_index, JS.len.
  destruct (Z.ltb_spec a 0); [lia|]. destruct (Z.ltb_spec b 0); [lia|].
  destruct (Z_le_gt_dec (Z.of_nat (length l)) a) as [Hge|Hlt].
  - rewrite !drop_ge by lia. now rewrite !take_nil.
  - rewrite (Z.min_l a) by lia.
    destruct (Z_le_gt_dec b (Z.of_nat (length l))) as [Hb|Hb].
    + now rewrite Z.min_l by lia.
    + rewrite Z.min_r by lia.
      rewrite !take_ge; [reflexivity| |]; rewrite length_drop; lia.
Qed.

Lemma slice_length l a b :
  0 <= a -> a <= b -> b <= JS.len l ->
  JS.len (JS.slice l a b) = b - a.
Proof.
  intros Ha Hab Hb. rewrite slice_segment by assumption.
  unfold JS.len in *. rewrite length_take, length_drop. lia.
Qed.
End ArrayFacts.

Lemma includes_spec l x : JS.includes l x = true <-> x ∈ l.
Proof.
  induction l as [|y l IH]; simpl.
  - split; [discriminate | intros H; inversion H].
  - rewrite orb_true_iff, IH, elem_of_cons, String.eqb_eq. split; intros [H|H]; auto.
Qed.

Lemma filter_includes {A} (key : A -> string) (keys : list string) (l : list A) :
  JS.filter (fun d => JS.includes keys (key d)) l =
  base.filter (fun d => key d ∈ keys) l.
Proof.
  induction l as [|x l IH]; simpl; [reflexivity|].
  rewrite filter_cons. destruct (JS.includes keys (key x)) eqn:E.
  - rewrite decide_True by now apply includes_spec. now rewrite IH.
  - rewrite decide_False; [exact IH|].
    intros H. apply includes_spec in H. congruence.
Qed.

(** [Array.from(new Set(l))] lists every element of [l] once. *)
Lemma Set_add_all_elem seen l x :
  x ∈ JS.Set_add_all seen l <-> x ∈ seen \/ x ∈ l.
Proof.
  revert seen. induction l as [|y l IH]; intros seen; simpl.
  - split; [now left | intros [H|H]; [assumption | inversion H]].
  - rewrite IH, elem_of_cons. destruct (JS.includes seen y) eqn:E.
    + apply includes_spec in E. split; [tauto|]. intros [H|[->|H]]; auto.
    + rewrite elem_of_app, list_elem_of_singleton. tauto.
Qed.

Lemma Set_add_all_NoDup seen l : NoDup seen -> NoDup (JS.Set_add_all seen l).
Proof.
  revert seen. induction l as [|y l IH]; intros seen H; simpl; [assumption|].
  apply IH. destruct (JS.includes seen y) eqn:E; [assumption|].
  apply NoDup_app. split; [assumption|]. split; [|apply NoDup_singleton].
  intros x Hx Hy. apply list_elem_of_singleton in Hy. subst x.
  apply includes_spec in Hx. congruence.
Qed.

Lemma months_of_spec h :
  NoDup (months_of h) /\ forall k, k ∈ months_of h <-> exists d, d ∈ h /\ monthKey d = k.
Proof.
  unfold months_of, JS.Array_from_Set. split.
  - apply Set_add_all_NoDup. constructor.
  - intros k. rewrite Set_add_all_elem, list_elem_of_fmap. split.
    + intros [H|(d & -> & Hd)]; [inversion H | eauto].
    + intros (d & Hd & <-). right. eauto.
Qed.

(** ** Month windows *)

Lemma totalWindows_of_pos m : 1 <= totalWindows_of m.
Proof. unfold totalWindows_of. lia. Qed.

Lemma defaultWindow_of_last m : defaultWindow_of m = totalWindows_of m - 1.
Proof. unfold defaultWindow_of, totalWindows_of, monthsToShow. lia. Qed.

Lemma zoom_around_bounds h idx :
  0 <= idx < JS.len h ->
  0 <= start (zoom_around h idx) < stop (zoom_around h idx) /\
  stop (zoom_around h idx) <= JS.len h.
Proof.
  intros H. unfold zoom_around. cbn [start stop].
  destruct (Z.ltb_spec (Z.min (JS.len h) (Z.max 0 (idx - 3) + 7) - Z.max 0 (idx - 3)) 7); lia.
Qed.

Lemma onClick_stores s e r :
  onClick s e = Some (Some r) ->
  exists label idx,
    clicked_label e = Some label /\ zoomRange s = None /\
    JS.findIndex (fun d => String.eqb (formatDate (date d)) label) (historical s) = idx /\
    0 <= idx < JS.len (historical s) /\
    r = zoom_around (historical s) idx.
Proof.
  unfold onClick. destruct (clicked_label e) as [label|]; [|discriminate].
  destruct (zoomRange s); [discriminate|].
  destruct (Z.eqb_spec
    (JS.findIndex (fun d => String.eqb (formatDate (date d)) label) (historical s)) (-1))
    as [|Hne]; [discriminate|].
  intros [= <-]. eexists _, _. repeat split; try reflexivity;
    apply (findIndex_hit _ _ _ eq_refl Hne).
Qed.

Lemma click_frame s e :
  result (click s e) = result s /\ windowStart (click s e) = windowStart s.
Proof. unfold click. destruct (onClick s e); split; reflexivity. Qed.

Lemma window_ok_step s ev : window_ok s -> window_ok (step s ev).
Proof.
  unfold window_ok, totalWindows, months, historical.
  destruct ev as [r| | |e]; cbn [step].
  - intros _. cbn [receive_result windowStart result].
    rewrite defaultWindow_of_last.
    pose proof (totalWindows_of_pos (months_of (historical_of r))). lia.
  - unfold scroll_left, currentWindow, totalWindows, months, historical.
    cbn [windowStart result]. lia.
  - unfold scroll_right, currentWindow, totalWindows, months, historical.
    cbn [windowStart result]. lia.
  - destruct (click_frame s e) as [-> ->]. trivial.
Qed.

Lemma zoom_ok_step s ev : zoom_ok s -> zoom_ok (step s ev).
Proof.
  unfold zoom_ok. destruct ev as [r| | |e]; cbn [step]; try (intros H; exact H).
  intros H r. unfold click. destruct (onClick s e) as [[z|]|] eqn:E.
  - cbn [zoomRange]. intros [= ->].
    destruct (onClick_stores _ _ _ E) as (label & idx & _ & _ & _ & Hidx & ->).
    apply zoom_around_bounds, Hidx.
  - discriminate.
  - apply H.
Qed.

Lemma reachable_inv s : Reachable s -> window_ok s /\ zoom_ok s.
Proof.
  induction 1 as [r|s ev _ [IHw IHz]].
  - split.
    + unfold window_ok, mount, totalWindows, months, historical.
      cbn [receive_result windowStart result]. rewrite defaultWindow_of_last.
      pose proof (totalWindows_of_pos (months_of (historical_of r))). lia.
    + intros z. discriminate.
  - split; [now apply window_ok_step | now apply zoom_ok_step].
Qed.

Lemma currentWindow_reachable s : Reachable s -> currentWindow s = windowStart s.
Proof.
  intros R. destruct (reachable_inv s R) as [W _].
  unfold window_ok in W. unfold currentWindow. lia.
Qed.

(** C7: in every reachable state, the left arrow never takes the current
    window index below 0 and the right arrow never takes it to
    [totalWindows] or beyond, where [totalWindows] is
    [max 1 (monthCount - 4 + 1)]; at index 0 the left arrow, and at index
    [totalWindows - 1] the right arrow, leaves the whole state as it is. *)
Theorem window_navigation_clamped (s : HomePage) :
  Reachable s ->
  totalWindows s = Z.max 1 (JS.len (months s) - 4 + 1) /\
  0 <= currentWindow (step s LeftArrow) < totalWindows (step s LeftArrow) /\
  0 <= currentWindow (step s RightArrow) < totalWindows (step s RightArrow) /\
  currentWindow (step s LeftArrow) = Z.max 0 (currentWindow s - 1) /\
  currentWindow (step s RightArrow) = Z.min (totalWindows s - 1) (currentWindow s + 1) /\
  (currentWindow s = 0 -> step s LeftArrow = s) /\
  (currentWindow s = totalWindows s - 1 -> step s RightArrow = s).
Proof.
  intros R. pose proof (currentWindow_reachable s R) as C.
  destruct (reachable_inv s R) as [W _].
  pose proof (reachable_inv _ (reach_step s LeftArrow R)) as [WL _].
  pose proof (reachable_inv _ (reach_step s RightArrow R)) as [WR _].
  pose proof (currentWindow_reachable _ (reach_step s LeftArrow R)) as CL.
  pose proof (currentWindow_reachable _ (reach_step s RightArrow R)) as CR.
  unfold window_ok in *. rewrite CL, CR.
  split; [reflexivity|].
  split; [lia|]. split; [lia|].
  split; [reflexivity|]. split; [reflexivity|].
  cbn [step]. unfold scroll_left, scroll_right.
  split; intros H; destruct s as [res ws z]; cbn [result windowStart zoomRange] in *;
    f_equal; lia.
Qed.

Lemma window_navigation_clamped_witness :
  step (mount Sample.short_response) LeftArrow = mount Sample.short_response /\
  step (mount Sample.short_response) RightArrow = mount Sample.short_response /\
  currentWindow (step (mount Sample.response) LeftArrow) = 2.
Proof.
  pose proof (window_navigation_clamped _ (reach_mount Sample.short_response))
    as (_ & _ & _ & _ & _ & L & R).
  pose proof (window_navigation_clamped _ (reach_mount Sample.response))
    as (_ & _ & _ & P & _).
  split; [apply L; reflexivity|]. split; [apply R; reflexivity|].
  rewrite P. reflexivity.
Defined.

(** C8: a click on the chart, whether it zooms in, zooms out or does
    nothing, leaves the window start, the series and with them the current
    window index, the number of windows and the visible months unchanged. *)
Theorem click_keeps_window (s : HomePage) (e : option ChartEvent) :
  windowStart (step s (ChartClick e)) = windowStart s /\
  result (step s (ChartClick e)) = result s /\
  currentWindow (step s (ChartClick e)) = currentWindow s /\
  totalWindows (step s (ChartClick e)) = totalWindows s /\
  visibleMonths (step s (ChartClick e)) = visibleMonths s.
Proof.
  cbn [step]. destruct (click_frame s e) as [Hr Hw].
  unfold visibleMonths, currentWindow, totalWindows, months, historical.
  rewrite Hr, Hw. repeat split; reflexivity.
Qed.

(** ** A new result *)

(** C1, as amended: when a new result arrives the window start, and with it
    the current window index, is set to the default window of the new
    series, whatever window or zoom the user was in; the zoom range is not
    cleared: it stays what it was. *)
Theorem new_result_resets_window (s : HomePage) (r : option PredictionResult) :
  windowStart (step s (NewResult r)) = defaultWindow (step s (NewResult r)) /\
  currentWindow (step s (NewResult r)) = defaultWindow (step s (NewResult r)) /\
  defaultWindow (step s (NewResult r)) =
    Z.max 0 (JS.len (months_of (historical_of r)) - 4) /\
  zoomRange (step s (NewResult r)) = zoomRange s.
Proof.
  cbn [step]. unfold currentWindow, defaultWindow, totalWindows, months, historical.
  cbn [receive_result windowStart result zoomRange].
  rewrite defaultWindow_of_last.
  repeat split; try reflexivity; try lia.
  unfold totalWindows_of, monthsToShow. lia.
Qed.

(** C1 as stated fails: a component that is zoomed in when a new result
    arrives is still zoomed in afterwards, on the range chosen for the old
    series. *)
Lemma new_result_keeps_zoom :
  Reachable Sample.zoomed /\
  zoomRange Sample.zoomed = Some {| start := 2; stop := 9 |} /\
  zoomRange (step Sample.zoomed (NewResult Sample.short_response))
    = Some {| start := 2; stop := 9 |} /\
  zoomRange (step Sample.zoomed (NewResult Sample.short_response)) <> None.
Proof.
  split; [|split; [|split]].
  - apply (reach_step _ (ChartClick _)), reach_mount.
  - reflexivity.
  - reflexivity.
  - discriminate.
Qed.

(** ** Clicks on the chart *)

Lemma clicked_label_Some e label :
  clicked_label e = Some label <->
  exists ev, e = Some ev /\ activeLabel ev = Some label /\ label <> "".
Proof.
  unfold clicked_label, JS.truthy_str. split.
  - destruct e as [ev|]; [|discriminate].
    destruct (activeLabel ev) as [l|] eqn:E; [|discriminate].
    destruct (String.eqb_spec l ""); [discriminate|].
    intros [= ->]. eauto.
  - intros (ev & -> & -> & H). destruct (String.eqb_spec label ""); [contradiction|].
    reflexivity.
Qed.

Lemma clicked_label_None e :
  clicked_label e = None <->
  e = None \/ exists ev, e = Some ev /\ (activeLabel ev = None \/ activeLabel ev = Some "").
Proof.
  unfold clicked_label, JS.truthy_str. split.
  - destruct e as [ev|]; [|now left]. right. exists ev. split; [reflexivity|].
    destruct (activeLabel ev) as [l|]; [|now left].
    destruct (String.eqb_spec l ""); [subst; now right | discriminate].
  - intros [->|(ev & -> & [->| ->])]; reflexivity.
Qed.

Lemma findIndex_label_miss h label :
  JS.findIndex (fun d => String.eqb (formatDate (date d)) label) h = -1 <->
  forall d, d ∈ h -> formatDate (date d) <> label.
Proof.
  rewrite findIndex_miss, Forall_forall. split; intros H d Hd.
  - apply String.eqb_neq, H, Hd.
  - apply String.eqb_neq, H, Hd.
Qed.

(** C2, as amended: a click that carries no event object, no active label
    or an empty one changes nothing, zoomed or not. A click with a label:
    while unzoomed, leaves the state unchanged if no point of the series
    displays that label and stores a zoom range if one does; while zoomed,
    clears the zoom range, whatever the label. *)
Theorem chart_click_toggle (s : HomePage) (e : option ChartEvent) :
  ((e = None \/
    exists ev, e = Some ev /\ (activeLabel ev = None \/ activeLabel ev = Some "")) ->
   step s (ChartClick e) = s) /\
  (forall ev label,
     e = Some ev -> activeLabel ev = Some label -> label <> "" ->
     (zoomRange s <> None -> zoomRange (step s (ChartClick e)) = None) /\
     (zoomRange s = None ->
      ((forall d, d ∈ historical s -> formatDate (date d) <> label) ->
       step s (ChartClick e) = s) /\
      ((exists d, d ∈ historical s /\ formatDate (date d) = label) ->
       exists r, zoomRange (step s (ChartClick e)) = Some r))).
Proof.
  cbn [step]. unfold click, onClick. split.
  - intros H. apply clicked_label_None in H. now rewrite H.
  - intros ev label He Hl Hne.
    assert (C : clicked_label e = Some label)
      by (apply clicked_label_Some; eauto).
    rewrite C. split.
    + destruct (zoomRange s); [reflexivity | congruence].
    + intros ->. split.
      * intros Hmiss. apply findIndex_label_miss in Hmiss. now rewrite Hmiss.
      * intros (d & Hd & Hf).
        destruct (Z.eqb_spec
          (JS.findIndex (fun d => String.eqb (formatDate (date d)) label) (historical s))
          (-1)) as [E|E].
        -- exfalso. exact (proj1 (findIndex_label_miss _ _) E d Hd Hf).
        -- cbn [zoomRange]. eauto.
Qed.

Lemma chart_click_toggle_witness :
  step Sample.zoomed (ChartClick Sample.click_off) = Sample.zoomed /\
  zoomRange (step Sample.zoomed (ChartClick (Sample.click_on "nowhere"))) = None /\
  step (mount Sample.response) (ChartClick (Sample.click_on "nowhere"))
    = mount Sample.response.
Proof.
  split; [|split].
  - apply (proj1 (chart_click_toggle Sample.zoomed Sample.click_off)).
    right. eexists. split; [reflexivity | now left].
  - apply (proj2 (chart_click_toggle Sample.zoomed (Sample.click_on "nowhere"))
             _ "nowhere" eq_refl eq_refl); [discriminate|].
    intros H. vm_compute in H. discriminate.
  - refine (proj1 (proj2 (proj2
      (chart_click_toggle (mount Sample.response) (Sample.click_on "nowhere"))
        _ "nowhere" eq_refl eq_refl _) eq_refl) _); [discriminate|].
    intros d Hd. apply list_elem_of_In in Hd. vm_compute in Hd.
    repeat (destruct Hd as [<-|Hd]; [vm_compute; discriminate|]). destruct Hd.
Defined.

(** C2 as stated fails while zoomed: a click without an active label (a
    click outside the plotted points) does not clear the zoom range. *)
Lemma click_without_label_keeps_zoom :
  zoomRange Sample.zoomed <> None /\
  zoomRange (step Sample.zoomed (ChartClick Sample.click_off)) <> None /\
  zoomRange (step Sample.zoomed (ChartClick None)) <> None.
Proof. repeat split; vm_compute; discriminate. Qed.

(** C4: a click that finds its point at index [idx] while unzoomed stores
    a range that is exactly 7 wide when the series has at least 7 points
    and is the whole series [0, length) otherwise; its end is
    [min length (start0 + 7)] for [start0 = max 0 (idx - 3)], and its start
    is [start0] unless that leaves fewer than 7 points, in which case it is
    re-anchored to [max 0 (end - 7)]. *)
Theorem zoom_range_width (s : HomePage) (e : option ChartEvent) (label : string) (idx : Z) :
  zoomRange s = None ->
  clicked_label e = Some label ->
  JS.findIndex (fun d => String.eqb (formatDate (date d)) label) (historical s) = idx ->
  idx <> -1 ->
  exists r,
    zoomRange (step s (ChartClick e)) = Some r /\
    (7 <= JS.len (historical s) -> stop r - start r = 7) /\
    (JS.len (historical s) < 7 -> start r = 0 /\ stop r = JS.len (historical s)) /\
    stop r = Z.min (JS.len (historical s)) (Z.max 0 (idx - 3) + 7) /\
    start r = (if stop r - Z.max 0 (idx - 3) <? 7
               then Z.max 0 (stop r - 7) else Z.max 0 (idx - 3)).
Proof.
  intros Hz Hl Hi Hne. destruct (findIndex_hit _ _ _ Hi Hne) as [Hr _].
  exists (zoom_around (historical s) idx). split.
  - cbn [step]. unfold click, onClick. rewrite Hl, Hz, Hi.
    destruct (Z.eqb_spec idx (-1)); [contradiction|]. reflexivity.
  - unfold zoom_around. cbn [start stop].
    destruct (Z.ltb_spec
      (Z.min (JS.len (historical s)) (Z.max 0 (idx - 3) + 7) - Z.max 0 (idx - 3)) 7);
      repeat split; lia.
Qed.

Lemma zoom_range_width_witness :
  exists r,
    zoomRange (step (mount Sample.response) (ChartClick (Sample.click_on "07/01/2024")))
      = Some r /\ stop r - start r = 7.
Proof.
  destruct (zoom_range_width (mount Sample.response) (Sample.click_on "07/01/2024")
              "07/01/2024" 8 eq_refl eq_refl eq_refl ltac:(discriminate))
    as (r & Hr & H7 & _).
  exists r. split; [exact Hr|]. apply H7. vm_compute. discriminate.
Defined.

(** ** The visible data *)

Lemma visibleData_zoomed s r :
  zoomRange s = Some r -> 0 <= start r -> start r < stop r ->
  visibleData s = JS.slice (historical s) (start r) (stop r).
Proof.
  intros Hz H0 H1. unfold visibleData. rewrite Hz.
  destruct (Z.geb_spec (start r) 0); [|lia].
  destruct (Z.gtb_spec (stop r) (start r)); [|lia]. reflexivity.
Qed.

Lemma visibleData_windowed s :
  zoomRange s = None \/
  (exists r, zoomRange s = Some r /\ (start r < 0 \/ stop r <= start r)) ->
  visibleData s = windowedData s.
Proof.
  unfold visibleData. intros [->|(r & -> & H)]; [reflexivity|].
  destruct (Z.geb_spec (start r) 0); destruct (Z.gtb_spec (stop r) (start r));
    try reflexivity; lia.
Qed.

Lemma rendered_zoom_ok s : Rendered s -> zoom_ok s.
Proof.
  intros [s' R|r|s' r R].
  - apply (reachable_inv s' R).
  - intros z. discriminate.
  - apply (reachable_inv s' R).
Qed.

(** C10, as amended: every range the click handler passes to
    [setZoomRange] satisfies [0 <= start < end <= length] for the series it
    was computed from, so the data shown by the render that follows the
    click is the slice [start, end) of that series, has [end - start] points
    and is not empty; and in every render, also after a later result has
    replaced the series, a range that is set has [0 <= start < end]. That
    the range fits the series and that its slice is not empty is promised
    for the series of the click only. *)
Theorem stored_zoom_range_valid (s : HomePage) (e : option ChartEvent) (r : ZoomRange) :
  (onClick s e = Some (Some r) ->
   0 <= start r < stop r /\ stop r <= JS.len (historical s) /\
   zoomRange (step s (ChartClick e)) = Some r /\
   visibleData (step s (ChartClick e)) = JS.slice (historical s) (start r) (stop r) /\
   JS.len (visibleData (step s (ChartClick e))) = stop r - start r /\
   visibleData (step s (ChartClick e)) <> []) /\
  (Rendered s -> zoomRange s = Some r -> 0 <= start r < stop r).
Proof.
  split; [|intros R Hz; exact (rendered_zoom_ok s R r Hz)].
  intros E.
  destruct (onClick_stores _ _ _ E) as (label & idx & _ & _ & _ & Hidx & ->).
  destruct (zoom_around_bounds _ _ Hidx) as [B1 B2].
  set (r := zoom_around (historical s) idx) in *.
  assert (Z : zoomRange (step s (ChartClick e)) = Some r)
    by (cbn [step]; unfold click; now rewrite E).
  assert (V : visibleData (step s (ChartClick e))
              = JS.slice (historical s) (start r) (stop r)).
  { rewrite (visibleData_zoomed _ r Z) by lia.
    unfold historical. cbn [step]. now destruct (click_frame s e) as [-> _]. }
  assert (L : JS.len (visibleData (step s (ChartClick e))) = stop r - start r)
    by (rewrite V; apply slice_length; lia).
  repeat split; try assumption; try lia.
  intros N. rewrite N in L. unfold JS.len in L. cbn [length] in L. lia.
Qed.

Lemma stored_zoom_range_valid_witness :
  map date (visibleData (step (mount Sample.response)
                           (ChartClick (Sample.click_on "01/03/2024"))))
  = map date (take 7 Sample.series).
Proof.
  destruct (proj1 (stored_zoom_range_valid (mount Sample.response)
                     (Sample.click_on "01/03/2024") {| start := 0; stop := 7 |}) eq_refl)
    as (_ & _ & _ & V & _).
  rewrite V. reflexivity.
Defined.

(** C10 as stated fails once a later result replaces the series: the
    range stored for the long series is kept, ends beyond the two points of
    the new series, and its slice is empty although the chart is shown. *)
Lemma kept_zoom_range_outlives_series :
  let s := step Sample.zoomed
             (NewResult (Some {| historical_opt := Some (take 2 Sample.series) |})) in
  Reachable s /\
  chartShown s = true /\
  zoomRange s = Some {| start := 2; stop := 9 |} /\
  JS.len (historical s) = 2 /\
  ~ (9 <= JS.len (historical s)) /\
  visibleData s = [].
Proof.
  cbv zeta. split; [|split; [|split; [|split; [|split]]]].
  - apply reach_step, (reach_step _ (ChartClick _)), reach_mount.
  - reflexivity.
  - reflexivity.
  - reflexivity.
  - vm_compute. intros H. apply H. reflexivity.
  - reflexivity.
Qed.

(** The test in front of the zoomed branch, for every state, also one
    that no execution reaches: a range that is set and has [start >= 0] and
    [end > start] is sliced; with no range, or one that fails the test, the
    points of the visible months are shown. *)
Lemma visibleData_spec (s : HomePage) :
  (forall r, zoomRange s = Some r -> 0 <= start r -> start r < stop r ->
     visibleData s = JS.slice (historical s) (start r) (stop r) /\
     visibleData s =
       take (Z.to_nat (stop r - start r)) (drop (Z.to_nat (start r)) (historical s))) /\
  ((zoomRange s = None \/
    exists r, zoomRange s = Some r /\ (start r < 0 \/ stop r <= start r)) ->
   visibleData s = base.filter (fun d => monthKey d ∈ visibleMonths s) (historical s)) /\
  (Reachable s -> forall r, zoomRange s = Some r ->
     visibleData s = JS.slice (historical s) (start r) (stop r)).
Proof.
  split; [|split].
  - intros r Hz H0 H1. rewrite (visibleData_zoomed s r Hz H0 H1).
    split; [reflexivity|]. apply slice_segment; lia.
  - intros H. rewrite (visibleData_windowed s H). apply filter_includes.
  - intros R r Hz. destruct (reachable_inv s R) as [_ Z].
    apply visibleData_zoomed; [assumption| |]; apply (Z r Hz).
Qed.

(** C5: in every state the component is rendered in (every series, window
    start and zoom range an execution produces): if the zoom range is set,
    the visible data is the slice [start, end) of the full series, whatever
    the month window; otherwise it is the sub-list, in the original order, of
    the points of the series whose month key (the first 7 characters of the
    date) is among the visible months. *)
Theorem visibleData_rendered (s : HomePage) :
  Rendered s ->
  (forall r, zoomRange s = Some r ->
     visibleData s = JS.slice (historical s) (start r) (stop r) /\
     visibleData s =
       take (Z.to_nat (stop r - start r)) (drop (Z.to_nat (start r)) (historical s))) /\
  (zoomRange s = None ->
   visibleData s = base.filter (fun d => monthKey d ∈ visibleMonths s) (historical s) /\
   forall d, d ∈ visibleData s <-> d ∈ historical s /\ monthKey d ∈ visibleMonths s).
Proof.
  intros R. split.
  - intros r Hz. destruct (rendered_zoom_ok s R r Hz) as [H0 H1].
    rewrite (visibleData_zoomed s r Hz H0 H1).
    split; [reflexivity|]. apply slice_segment; lia.
  - intros Hz. rewrite (visibleData_windowed s (or_introl Hz)).
    unfold windowedData. rewrite filter_includes. split; [reflexivity|].
    intros d. rewrite list_elem_of_filter. tauto.
Qed.

Lemma visibleData_rendered_witness :
  map date (visibleData Sample.zoomed) = map date (drop 2 Sample.series) /\
  map date (visibleData (mount Sample.response)) = map date (drop 4 Sample.series) /\
  map date (visibleData (render_before_effect Sample.zoomed Sample.short_response))
    = ["2024-02-01"].
Proof.
  assert (Rz : Reachable Sample.zoomed)
    by (apply (reach_step _ (ChartClick _)), reach_mount).
  split; [|split].
  - destruct (proj1 (visibleData_rendered Sample.zoomed (rendered_settled _ Rz))
                {| start := 2; stop := 9 |} eq_refl) as [_ ->].
    reflexivity.
  - destruct (proj2 (visibleData_rendered (mount Sample.response)
                       (rendered_settled _ (reach_mount Sample.response))) eq_refl)
      as [-> _].
    vm_compute. reflexivity.
  - destruct (proj1 (visibleData_rendered _
                       (rendered_before_effect Sample.zoomed Sample.short_response Rz))
                {| start := 2; stop := 9 |} eq_refl) as [-> _].
    reflexivity.
Defined.

(** ** The value axis *)

(** IEEE multiplication is commutative, so [yRange * 0.05] in the source and
    [0.05 * range] in the specification are the same number. *)
Lemma float_mul_comm (x y : JS.number) : PrimFloat.mul x y = PrimFloat.mul y x.
Proof.
  apply FloatAxioms.Prim2SF_inj. rewrite !FloatAxioms.mul_spec.
  unfold FloatAxioms.SF64mul, SpecFloat.SFmul.
  destruct (FloatOps.Prim2SF x) as [sx|sx| |sx mx ex],
           (FloatOps.Prim2SF y) as [sy|sy| |sy my ey];
    try reflexivity; rewrite (xorb_comm sx sy); try reflexivity.
  now rewrite (Pos.mul_comm mx my), (Z.add_comm ex ey).
Qed.

Lemma yBounds_finite data zoom :
  JS.isFinite (rawMin data) = true -> JS.isFinite (rawMax data) = true ->
  yBounds data zoom =
    match zoom with
    | Some _ =>
        let range := PrimFloat.sub (rawMax data) (rawMin data) in
        (PrimFloat.sub (rawMin data) (PrimFloat.mul margin_ratio range),
         PrimFloat.add (rawMax data) (PrimFloat.mul margin_ratio range))
    | None =>
        (JS.Math_floor (PrimFloat.sub (rawMin data) 15%float),
         JS.Math_ceil (PrimFloat.add (rawMax data) 15%float))
    end.
Proof.
  intros Hmin Hmax. unfold yBounds. rewrite Hmin, Hmax. cbn [andb].
  destruct zoom; [|reflexivity]. cbv zeta.
  now rewrite (float_mul_comm _ margin_ratio).
Qed.

Lemma yBounds_not_finite data zoom :
  JS.isFinite (rawMin data) && JS.isFinite (rawMax data) = false ->
  yBounds data zoom = (rawMin data, rawMax data).
Proof. intros H. unfold yBounds. now rewrite H. Qed.

(** C3, as amended: when the visible data is empty, or its minimum or
    maximum is not finite, the axis domain handed to the chart is the pair
    of raw bounds with no margin applied, which for empty data is
    [(Infinity, -Infinity)]; it is never left undefined. *)
Theorem axis_domain_not_finite (data : list HistoricalDataPoint) (zoom : option ZoomRange) :
  data = [] \/ JS.isFinite (rawMin data) = false \/ JS.isFinite (rawMax data) = false ->
  YAxis_domain data zoom = Some (rawMin data, rawMax data) /\
  YAxis_domain data zoom <> None /\
  (data = [] -> rawMin data = PrimFloat.infinity /\ rawMax data = PrimFloat.neg_infinity).
Proof.
  intros H. unfold YAxis_domain. rewrite yBounds_not_finite.
  - split; [reflexivity|]. split; [discriminate|]. intros ->. split; reflexivity.
  - destruct H as [->|[H|H]]; [reflexivity| |]; rewrite H;
      [reflexivity | apply andb_false_r].
Qed.

Lemma axis_domain_not_finite_witness :
  YAxis_domain [] None = Some (PrimFloat.infinity, PrimFloat.neg_infinity).
Proof.
  destruct (axis_domain_not_finite [] None (or_introl eq_refl)) as (E & _ & _).
  rewrite E. reflexivity.
Defined.

(** C3 as stated fails: for empty data, and for a series in which a price
    is infinite, the domain is a pair of numbers, not [undefined]. *)
Lemma axis_domain_never_undefined :
  YAxis_domain [] None = Some (PrimFloat.infinity, PrimFloat.neg_infinity) /\
  YAxis_domain [] None <> None /\
  axisDomain
    (mount (Some {| historical_opt :=
                      Some [Sample.point "2024-01-02" PrimFloat.infinity 100] |}))
    = Some (100%float, PrimFloat.infinity).
Proof. split; [reflexivity|]. split; [discriminate|]. vm_compute. reflexivity. Qed.

(** C6: when the visible data is not empty and its minimum [rawMin] and
    maximum [rawMax] are finite, the axis domain is
    [(floor (rawMin - 15), ceil (rawMax + 15))] while no zoom range is set
    and [(rawMin - 0.05 * range, rawMax + 0.05 * range)], for
    [range = rawMax - rawMin], while one is set. The arithmetic is that of
    JavaScript numbers. *)
Theorem axis_domain_margins (s : HomePage) :
  visibleData s <> [] ->
  JS.isFinite (rawMin (visibleData s)) = true ->
  JS.isFinite (rawMax (visibleData s)) = true ->
  let lo := rawMin (visibleData s) in
  let hi := rawMax (visibleData s) in
  (zoomRange s = None ->
   axisDomain s = Some (JS.Math_floor (PrimFloat.sub lo 15%float),
                        JS.Math_ceil (PrimFloat.add hi 15%float))) /\
  (zoomRange s <> None ->
   let range := PrimFloat.sub hi lo in
   axisDomain s = Some (PrimFloat.sub lo (PrimFloat.mul margin_ratio range),
                        PrimFloat.add hi (PrimFloat.mul margin_ratio range))).
Proof.
  intros _ Hmin Hmax lo hi. unfold axisDomain, YAxis_domain.
  rewrite (yBounds_finite _ _ Hmin Hmax).
  split.
  - intros ->. reflexivity.
  - intros H. destruct (zoomRange s); [reflexivity | contradiction].
Qed.

Lemma axis_domain_margins_witness :
  axisDomain (mount Sample.response) = Some (92%float, 132%float) /\
  axisDomain Sample.zoomed = Some (0x1.994cccccccccdp+6%float, 0x1.d4b3333333333p+6%float).
Proof.
  split.
  - rewrite (proj1 (axis_domain_margins (mount Sample.response)
                      ltac:(vm_compute; discriminate) eq_refl eq_refl) eq_refl).
    vm_compute. reflexivity.
  - rewrite (proj2 (axis_domain_margins Sample.zoomed
                      ltac:(vm_compute; discriminate) eq_refl eq_refl)
               ltac:(vm_compute; discriminate)).
    vm_compute. reflexivity.
Defined.

(** * Further properties of the component *)

(** ** The months of a series *)

Lemma Set_add_all_order seen l :
  exists l', JS.Set_add_all seen l = seen ++ l' /\ sublist l' l.
Proof.
  revert seen. induction l as [|x l IH]; intros seen; simpl.
  - exists []. split; [now rewrite app_nil_r | constructor].
  - destruct (JS.includes seen x).
    + destruct (IH seen) as (l' & -> & S). exists l'. split; [reflexivity|].
      now apply sublist_cons.
    + destruct (IH (seen ++ [x])) as (l' & -> & S). exists (x :: l'). split.
      * now rewrite <- app_assoc.
      * now apply sublist_skip.
Qed.

Lemma Set_add_all_filter seen l :
  JS.Set_add_all seen l =
  seen ++ base.filter (fun y => y ∉ seen) (JS.Set_add_all [] l).
Proof.
  revert seen. induction l as [|x l IH]; intros seen.
  - cbn [JS.Set_add_all]. now rewrite filter_nil, app_nil_r.
  - cbn [JS.Set_add_all JS.includes app]. rewrite (IH [x]). cbn [app].
    destruct (JS.includes seen x) eqn:E.
    + apply includes_spec in E. rewrite IH. f_equal.
      rewrite (filter_cons_False (fun y => y ∉ seen) x) by (intros H; now apply H).
      symmetry. apply list_filter_filter_l.
      intros y Hy Hx. apply list_elem_of_singleton in Hx. now subst y.
    + assert (N : x ∉ seen) by (intros H; apply includes_spec in H; congruence).
      rewrite IH, <- app_assoc. cbn [app]. f_equal.
      rewrite (filter_cons_True (fun y => y ∉ seen) x) by exact N. f_equal.
      rewrite list_filter_filter. apply list_filter_iff.
      intros y. now rewrite not_elem_of_app.
Qed.

(** X1: the months of a series are its month keys with every repetition
    after the first dropped: an empty series has no month, and the months of
    a series that starts with the point [d] are the month key of [d]
    followed by the months of the rest from which that key is removed. So
    they hold every month key of the series and nothing else, each once, and
    form a sub-list of the list of keys. *)
Theorem months_unique_in_order (h : list HistoricalDataPoint) :
  months_of [] = [] /\
  (forall d, months_of (d :: h) =
             monthKey d :: base.filter (fun k => k <> monthKey d) (months_of h)) /\
  NoDup (months_of h) /\
  (forall k, k ∈ months_of h <-> exists d, d ∈ h /\ monthKey d = k) /\
  sublist (months_of h) (map monthKey h).
Proof.
  split; [reflexivity|]. split.
  - intros d. unfold months_of, JS.Array_from_Set.
    cbn [map JS.Set_add_all JS.includes app]. rewrite Set_add_all_filter. cbn [app].
    f_equal. apply list_filter_iff. intros k. now rewrite list_elem_of_singleton.
  - destruct (months_of_spec h) as [N M]. split; [exact N|]. split; [exact M|].
    unfold months_of, JS.Array_from_Set.
    destruct (Set_add_all_order [] (map monthKey h)) as (l' & -> & S). exact S.
Qed.

(** ** The visible months *)

Lemma visibleMonths_window s :
  window_ok s ->
  currentWindow s = windowStart s /\
  visibleMonths s = take 4 (drop (Z.to_nat (windowStart s)) (months s)) /\
  JS.len (visibleMonths s) = Z.min 4 (JS.len (months s)).
Proof.
  intros W. unfold window_ok in W.
  assert (C : currentWindow s = windowStart s) by (unfold currentWindow; lia).
  assert (V : visibleMonths s = take 4 (drop (Z.to_nat (windowStart s)) (months s))).
  { unfold visibleMonths. rewrite C, slice_segment by (unfold monthsToShow; lia).
    unfold monthsToShow. f_equal. lia. }
  split; [exact C|]. split; [exact V|].
  rewrite V. unfold JS.len. rewrite length_take, length_drop.
  unfold totalWindows, totalWindows_of, monthsToShow, JS.len in W. lia.
Qed.

(** X2: in every reachable state the visible months are the (up to) four
    consecutive months that start at the current window index; there are
    exactly [min 4 monthCount] of them, and all the months when the series
    has four or fewer. *)
Theorem visibleMonths_four (s : HomePage) :
  Reachable s ->
  visibleMonths s = take 4 (drop (Z.to_nat (currentWindow s)) (months s)) /\
  JS.len (visibleMonths s) = Z.min 4 (JS.len (months s)) /\
  (JS.len (months s) <= 4 -> visibleMonths s = months s).
Proof.
  intros R. destruct (reachable_inv s R) as [W _].
  destruct (visibleMonths_window s W) as (C & V & L).
  rewrite C. split; [exact V|]. split; [exact L|].
  intros H. rewrite V. unfold window_ok, totalWindows, totalWindows_of, monthsToShow in W.
  replace (Z.to_nat (windowStart s)) with O by lia.
  rewrite drop_0. apply take_ge. unfold JS.len in H. lia.
Qed.

Lemma visibleMonths_four_witness :
  visibleMonths (mount Sample.short_response) = ["2024-01"; "2024-02"] /\
  JS.len (visibleMonths (step (mount Sample.response) LeftArrow)) = 4.
Proof.
  split.
  - destruct (visibleMonths_four _ (reach_mount Sample.short_response)) as (_ & _ & A).
    rewrite A; [reflexivity | vm_compute; discriminate].
  - destruct (visibleMonths_four _
                (reach_step _ LeftArrow (reach_mount Sample.response))) as (_ & L & _).
    rewrite L. reflexivity.
Defined.

(** X3: right after a result is received the visible months are the last
    four months of its series (all of them when there are fewer), whatever
    the state was before. *)
Theorem new_result_shows_latest_months (s : HomePage) (r : option PredictionResult) :
  visibleMonths (step s (NewResult r)) =
    drop (length (months_of (historical_of r)) - 4) (months_of (historical_of r)).
Proof.
  assert (W : window_ok (step s (NewResult r))).
  { cbn [step]. unfold window_ok, totalWindows, months, historical.
    cbn [receive_result windowStart result]. rewrite defaultWindow_of_last.
    pose proof (totalWindows_of_pos (months_of (historical_of r))). lia. }
  destruct (visibleMonths_window _ W) as (_ & V & _). rewrite V.
  cbn [step]. unfold months, historical. cbn [receive_result windowStart result].
  unfold defaultWindow_of, monthsToShow, JS.len.
  replace (Z.to_nat (Z.max 0 (Z.of_nat (length (months_of (historical_of r))) - 4)))
    with (length (months_of (historical_of r)) - 4)%nat by lia.
  apply take_ge. rewrite length_drop. lia.
Qed.

(** ** The visible data *)

Lemma slice_sublist {A} (l : list A) a b : sublist (JS.slice l a b) l.
Proof.
  unfold JS.slice. etransitivity; [apply sublist_take | apply sublist_drop].
Qed.

Lemma windowedData_sublist s : sublist (windowedData s) (historical s).
Proof. unfold windowedData. rewrite filter_includes. apply sublist_filter. Qed.

(** X4: in every state the visible data is a sub-list of the series: the
    view never adds, repeats or reorders a point. *)
Theorem visibleData_sublist (s : HomePage) :
  sublist (visibleData s) (historical s) /\
  JS.len (visibleData s) <= JS.len (historical s).
Proof.
  assert (S : sublist (visibleData s) (historical s)).
  { unfold visibleData. destruct (zoomRange s) as [r|]; [|apply windowedData_sublist].
    destruct ((start r >=? 0) && (stop r >? start r));
      [apply slice_sublist | apply windowedData_sublist]. }
  split; [exact S|]. apply sublist_length in S. unfold JS.len. lia.
Qed.

Lemma chartShown_historical s : chartShown s = true <-> historical s <> [].
Proof.
  unfold chartShown, historical, historical_of, JS.len.
  destruct (result s) as [r|]; [|split; [discriminate | congruence]].
  destruct (historical_opt r) as [h|]; cbn [default];
    [|split; [discriminate | congruence]].
  destruct h as [|d h]; cbn [length].
  - split; [intros H; vm_compute in H; discriminate | intros H; now destruct H].
  - split; [discriminate | intros _; apply Z.gtb_lt; lia].
Qed.

Lemma windowedData_nonempty s :
  window_ok s -> historical s <> [] -> windowedData s <> [].
Proof.
  intros W H. destruct (visibleMonths_window s W) as (_ & _ & L).
  destruct (historical s) as [|d0 h] eqn:E; [contradiction|].
  assert (M : monthKey d0 ∈ months s).
  { unfold months. rewrite E. apply months_of_spec. exists d0. split; [left | reflexivity]. }
  assert (N : visibleMonths s <> []).
  { intros N. rewrite N in L. unfold JS.len in L. cbn [length] in L.
    destruct (months s); [inversion M | cbn [length] in L; lia]. }
  destruct (visibleMonths s) as [|k ks] eqn:V; [contradiction|].
  assert (K : k ∈ months s).
  { assert (I : k ∈ visibleMonths s) by (rewrite V; left).
    unfold visibleMonths in I. eapply elem_of_sublist; [exact I|]. apply slice_sublist. }
  unfold months in K. apply months_of_spec in K. destruct K as (d & Hd & Hk).
  assert (I : d ∈ windowedData s).
  { unfold windowedData. rewrite filter_includes. apply list_elem_of_filter.
    rewrite V, Hk. split; [left | exact Hd]. }
  intros Z. rewrite Z in I. inversion I.
Qed.

(** X5: in every reachable state in which the chart is rendered and no
    zoom range is set, the visible data is not empty. *)
Theorem unzoomed_chart_not_empty (s : HomePage) :
  Reachable s -> chartShown s = true -> zoomRange s = None ->
  visibleData s <> [].
Proof.
  intros R C Z. destruct (reachable_inv s R) as [W _].
  rewrite (visibleData_windowed s (or_introl Z)).
  apply windowedData_nonempty; [exact W | now apply chartShown_historical].
Qed.

Lemma unzoomed_chart_not_empty_witness :
  visibleData (step (mount Sample.response) LeftArrow) <> [].
Proof.
  apply (unzoomed_chart_not_empty _
           (reach_step _ LeftArrow (reach_mount Sample.response)) eq_refl eq_refl).
Defined.

(** ** Paging with the arrows *)

Lemma press_left k s :
  window_ok s ->
  window_ok (press k LeftArrow s) /\
  result (press k LeftArrow s) = result s /\
  zoomRange (press k LeftArrow s) = zoomRange s /\
  windowStart (press k LeftArrow s) = Z.max 0 (windowStart s - Z.of_nat k).
Proof.
  revert s. induction k as [|k IH]; intros s W; cbn [press].
  - split; [exact W|]. split; [reflexivity|]. split; [reflexivity|].
    unfold window_ok in W. lia.
  - destruct (IH (step s LeftArrow) (window_ok_step s LeftArrow W)) as (W' & R & Zm & S).
    split; [exact W'|]. rewrite R, Zm, S. cbn [step scroll_left result zoomRange windowStart].
    split; [reflexivity|]. split; [reflexivity|].
    unfold window_ok in W. unfold currentWindow. lia.
Qed.

Lemma mount_window r :
  window_ok (mount r) /\ result (mount r) = r /\ zoomRange (mount r) = None /\
  windowStart (mount r) = totalWindows (mount r) - 1.
Proof.
  unfold window_ok, totalWindows, months, historical, mount.
  cbn [receive_result windowStart result zoomRange]. rewrite defaultWindow_of_last.
  pose proof (totalWindows_of_pos (months_of (historical_of r))).
  repeat split; lia.
Qed.

(** X6: every point of a series can be brought into view with the left
    arrow alone: for each point there is a number of presses, smaller than
    the number of windows, after which the visible data of the freshly
    mounted component holds it. *)
Theorem every_point_in_some_window (r : option PredictionResult) (d : HistoricalDataPoint) :
  d ∈ historical_of r ->
  exists k : nat,
    Z.of_nat k < totalWindows (mount r) /\
    d ∈ visibleData (press k LeftArrow (mount r)).
Proof.
  intros Hd. destruct (mount_window r) as (W & Rm & Zm & Sm).
  assert (K : monthKey d ∈ months (mount r)).
  { unfold months, historical. rewrite Rm. apply months_of_spec. eauto. }
  apply list_elem_of_lookup in K. destruct K as [i Hi].
  pose proof (lookup_lt_Some _ _ _ Hi) as Li.
  set (tw := totalWindows (mount r)) in *.
  assert (T : tw = Z.max 1 (Z.of_nat (length (months (mount r))) - 4 + 1)) by reflexivity.
  set (w := Z.min (Z.of_nat i) (tw - 1)).
  exists (Z.to_nat (tw - 1 - w)). split; [lia|].
  destruct (press_left (Z.to_nat (tw - 1 - w)) (mount r) W) as (W' & R' & Z' & S').
  set (s' := press (Z.to_nat (tw - 1 - w)) LeftArrow (mount r)) in *.
  assert (Hs : windowStart s' = w) by lia.
  assert (Hm : months s' = months (mount r))
    by (unfold months, historical; now rewrite R').
  destruct (visibleMonths_window s' W') as (_ & V & _).
  rewrite (visibleData_windowed s') by (left; now rewrite Z', Zm).
  unfold windowedData. rewrite filter_includes. apply list_elem_of_filter.
  split; [|unfold historical; now rewrite R', Rm].
  rewrite V, Hs, Hm. apply list_elem_of_lookup. exists (i - Z.to_nat w)%nat.
  rewrite lookup_take_lt by lia. rewrite lookup_drop.
  replace (Z.to_nat w + (i - Z.to_nat w))%nat with i by lia. exact Hi.
Qed.

Lemma every_point_in_some_window_witness :
  exists k : nat,
    Z.of_nat k < 4 /\
    Sample.point "2024-01-03" 102 99
      ∈ visibleData (press k LeftArrow (mount Sample.response)).
Proof.
  apply (every_point_in_some_window Sample.response (Sample.point "2024-01-03" 102 99)).
  apply list_elem_of_In. vm_compute. right. left. reflexivity.
Defined.

(** X7: away from the two ends the arrows undo each other: in a reachable
    state whose window index is above 0, left then right gives the state
    back, and below the last window, right then left does. *)
Theorem arrows_undo_each_other (s : HomePage) :
  Reachable s ->
  (0 < currentWindow s -> step (step s LeftArrow) RightArrow = s) /\
  (currentWindow s < totalWindows s - 1 -> step (step s RightArrow) LeftArrow = s).
Proof.
  intros R. destruct (reachable_inv s R) as [W _]. unfold window_ok in W.
  destruct s as [res ws z]. cbn [step]. unfold scroll_left, scroll_right, currentWindow,
    totalWindows, months, historical in *. cbn [result windowStart zoomRange] in *.
  split; intros H; f_equal; lia.
Qed.

Lemma arrows_undo_each_other_witness :
  step (step (mount Sample.response) LeftArrow) RightArrow = mount Sample.response.
Proof.
  apply (proj1 (arrows_undo_each_other _ (reach_mount Sample.response))).
  vm_compute. reflexivity.
Defined.

(** X8: in every reachable state an arrow is disabled exactly when a
    click on it would leave the state as it is; an enabled left arrow moves
    the window index down by one and an enabled right arrow up by one; with
    four months or fewer both arrows are disabled. *)
Theorem arrows_disabled_iff_idle (s : HomePage) :
  Reachable s ->
  (leftDisabled s = true <-> step s LeftArrow = s) /\
  (rightDisabled s = true <-> step s RightArrow = s) /\
  (leftDisabled s = false ->
   currentWindow (step s LeftArrow) = currentWindow s - 1) /\
  (rightDisabled s = false ->
   currentWindow (step s RightArrow) = currentWindow s + 1) /\
  (JS.len (months s) <= 4 -> leftDisabled s = true /\ rightDisabled s = true).
Proof.
  intros R. destruct (reachable_inv s R) as [W _]. unfold window_ok in W.
  unfold leftDisabled, rightDisabled.
  destruct (Z.eqb_spec (currentWindow s) 0) as [E0|E0];
    destruct (Z.geb_spec (currentWindow s) (totalWindows s - 1)) as [E1|E1];
    destruct s as [res ws z]; cbn [step];
    unfold scroll_left, scroll_right, currentWindow, totalWindows, totalWindows_of,
      monthsToShow, months, historical in *;
    cbn [result windowStart zoomRange] in *;
    (repeat split; try discriminate; try lia;
     try (intros _; f_equal; lia);
     try (intros [= H]; lia)).
Qed.

Lemma arrows_disabled_iff_idle_witness :
  rightDisabled (mount Sample.response) = true /\
  currentWindow (step (mount Sample.response) LeftArrow) = 2.
Proof.
  destruct (arrows_disabled_iff_idle _ (reach_mount Sample.response))
    as (_ & R & L & _).
  split; [apply R; reflexivity|]. rewrite L; reflexivity.
Defined.

(** X9: while a zoom range is set, in every reachable state, the arrows
    still move the window start but the chart does not change: the visible
    data and the axis domain are the same after either arrow. *)
Theorem arrows_hidden_while_zoomed (s : HomePage) (ev : Event) :
  Reachable s -> zoomRange s <> None -> ev = LeftArrow \/ ev = RightArrow ->
  visibleData (step s ev) = visibleData s /\
  axisDomain (step s ev) = axisDomain s /\
  zoomRange (step s ev) = zoomRange s.
Proof.
  intros R Z E. destruct (reachable_inv s R) as [_ Zok].
  destruct (zoomRange s) as [r|] eqn:Hz; [|contradiction].
  destruct (Zok r Hz) as [H0 H1].
  assert (Hz' : zoomRange (step s ev) = Some r) by (destruct E as [-> | ->]; exact Hz).
  assert (Hh : historical (step s ev) = historical s) by (destruct E as [-> | ->]; reflexivity).
  assert (V : visibleData (step s ev) = visibleData s).
  { rewrite (visibleData_zoomed _ r Hz' H0 H1), (visibleData_zoomed _ r Hz H0 H1).
    now rewrite Hh. }
  split; [exact V|]. split; [|exact Hz'].
  unfold axisDomain. now rewrite V, Hz', Hz.
Qed.

Lemma arrows_hidden_while_zoomed_witness :
  visibleData (step Sample.zoomed LeftArrow) = visibleData Sample.zoomed /\
  windowStart (step Sample.zoomed LeftArrow) = 2.
Proof.
  split; [|reflexivity].
  apply (arrows_hidden_while_zoomed Sample.zoomed LeftArrow).
  - apply (reach_step _ (ChartClick _)), reach_mount.
  - vm_compute. discriminate.
  - now left.
Defined.

(** ** Zooming *)

Lemma zoom_around_shape h idx :
  0 <= idx < JS.len h ->
  start (zoom_around h idx) <= idx < stop (zoom_around h idx) /\
  stop (zoom_around h idx) - start (zoom_around h idx) <= 7 /\
  (3 <= idx -> idx + 4 <= JS.len h ->
   start (zoom_around h idx) = idx - 3 /\ stop (zoom_around h idx) = idx + 4).
Proof.
  intros H. unfold zoom_around. cbn [start stop].
  destruct (Z.ltb_spec (Z.min (JS.len h) (Z.max 0 (idx - 3) + 7) - Z.max 0 (idx - 3)) 7);
    repeat split; lia.
Qed.

Lemma zoom_around_week h idx :
  stop (zoom_around h idx) - start (zoom_around h idx) <= 7.
Proof.
  unfold zoom_around. cbn [start stop].
  destruct (Z.ltb_spec (Z.min (JS.len h) (Z.max 0 (idx - 3) + 7) - Z.max 0 (idx - 3)) 7);
    lia.
Qed.

Lemma click_stores s e z :
  onClick s e = Some z ->
  zoomRange (step s (ChartClick e)) = z /\
  historical (step s (ChartClick e)) = historical s.
Proof.
  intros E. cbn [step]. unfold click, historical. rewrite E. now split.
Qed.

(** X10: the range stored by a click holds the clicked point: the point
    found for the label lies inside the range and is part of the data shown
    after the click; the range spans at most seven points, and when the
    point has three points before it and three after it, the range is
    centred on it. *)
Theorem zoom_holds_clicked_point (s : HomePage) (e : option ChartEvent) (r : ZoomRange) :
  onClick s e = Some (Some r) ->
  exists idx d,
    historical s !! Z.to_nat idx = Some d /\
    clicked_label e = Some (formatDate (date d)) /\
    start r <= idx < stop r /\
    stop r - start r <= 7 /\
    (3 <= idx -> idx + 4 <= JS.len (historical s) ->
     start r = idx - 3 /\ stop r = idx + 4) /\
    d ∈ visibleData (step s (ChartClick e)).
Proof.
  intros E.
  destruct (onClick_stores _ _ _ E) as (label & idx & Hl & _ & Hi & Hidx & ->).
  destruct (findIndex_hit _ _ _ Hi ltac:(lia)) as (_ & d & Hd & Hp).
  apply String.eqb_eq in Hp.
  destruct (zoom_around_shape _ _ Hidx) as (In & Wk & Mid).
  destruct (zoom_around_bounds _ _ Hidx) as (B & _).
  destruct (click_stores _ _ _ E) as [Hz Hh].
  set (r := zoom_around (historical s) idx) in *.
  exists idx, d. rewrite Hl, Hp. repeat split; try assumption; try lia.
  rewrite (visibleData_zoomed _ r Hz) by lia. rewrite Hh.
  rewrite slice_segment by lia. apply list_elem_of_lookup.
  exists (Z.to_nat (idx - start r)). rewrite lookup_take_lt by lia.
  rewrite lookup_drop. replace (Z.to_nat (start r) + Z.to_nat (idx - start r))%nat
    with (Z.to_nat idx) by lia. exact Hd.
Qed.

Lemma zoom_holds_clicked_point_witness :
  exists idx d,
    Sample.series !! Z.to_nat idx = Some d /\ 1 <= idx < 8 /\
    d ∈ visibleData (step (mount Sample.response)
                       (ChartClick (Sample.click_on "04/01/2024"))).
Proof.
  destruct (zoom_holds_clicked_point (mount Sample.response)
              (Sample.click_on "04/01/2024") {| start := 1; stop := 8 |} eq_refl)
    as (idx & d & Hd & _ & In & _ & _ & V).
  exists idx, d. split; [exact Hd|]. split; [exact In | exact V].
Defined.

Lemma zoom_week_step s ev : zoom_week s -> zoom_week (step s ev).
Proof.
  unfold zoom_week. destruct ev as [r| | |e]; cbn [step]; try (intros H; exact H).
  intros H r. unfold click. destruct (onClick s e) as [[z|]|] eqn:E.
  - cbn [zoomRange]. intros [= ->].
    destruct (onClick_stores _ _ _ E) as (label & idx & _ & _ & _ & _ & ->).
    apply zoom_around_week.
  - discriminate.
  - apply H.
Qed.

Lemma reachable_week s : Reachable s -> zoom_week s.
Proof.
  induction 1 as [r|s ev _ IH].
  - intros z. discriminate.
  - now apply zoom_week_step.
Qed.

(** X11: in every reachable state with a zoom range set, also one kept
    from an earlier series, the visible data is the slice of the current
    series at that range and holds at most seven points. *)
Theorem zoomed_view_at_most_week (s : HomePage) (r : ZoomRange) :
  Reachable s -> zoomRange s = Some r ->
  visibleData s = JS.slice (historical s) (start r) (stop r) /\
  JS.len (visibleData s) <= 7.
Proof.
  intros R Hz. destruct (reachable_inv s R) as [_ Zok].
  destruct (Zok r Hz) as [H0 H1]. pose proof (reachable_week s R r Hz) as Wk.
  rewrite (visibleData_zoomed s r Hz H0 H1). split; [reflexivity|].
  rewrite slice_segment by lia. unfold JS.len. rewrite length_take. lia.
Qed.

Lemma zoomed_view_at_most_week_witness :
  JS.len (visibleData (step Sample.zoomed (NewResult Sample.short_response))) <= 7.
Proof.
  apply (zoomed_view_at_most_week _ {| start := 2; stop := 9 |}).
  - apply reach_step, (reach_step _ (ChartClick _)), reach_mount.
  - reflexivity.
Defined.

(** X12: zooming in and clicking again is a round trip: from a state with
    no zoom range, a click on the label of a point of the series followed by
    any click that carries a label gives back the state one started from. *)
Theorem zoom_toggle_round_trip (s : HomePage) (e1 e2 : option ChartEvent)
    (label1 label2 : string) (d : HistoricalDataPoint) :
  zoomRange s = None ->
  clicked_label e1 = Some label1 ->
  d ∈ historical s -> formatDate (date d) = label1 ->
  clicked_label e2 = Some label2 ->
  step (step s (ChartClick e1)) (ChartClick e2) = s.
Proof.
  intros Hz H1 Hd Hf H2. cbn [step].
  assert (E1 : exists r, onClick s e1 = Some (Some r)).
  { unfold onClick. rewrite H1, Hz.
    destruct (Z.eqb_spec
      (JS.findIndex (fun d => String.eqb (formatDate (date d)) label1) (historical s))
      (-1)) as [E|E]; [|eauto].
    exfalso. exact (proj1 (findIndex_label_miss _ _) E d Hd Hf). }
  destruct E1 as [r E1].
  assert (C1 : click s e1 =
               {| result := result s; windowStart := windowStart s;
                  zoomRange := Some r |}) by (unfold click; now rewrite E1).
  rewrite C1. unfold click, onClick. rewrite H2. cbn [zoomRange result windowStart].
  destruct s as [res ws z]. cbn [zoomRange result windowStart] in *. now subst z.
Qed.

Lemma zoom_toggle_round_trip_witness :
  step (step (mount Sample.response) (ChartClick (Sample.click_on "07/01/2024")))
       (ChartClick (Sample.click_on "nowhere"))
  = mount Sample.response.
Proof.
  apply (zoom_toggle_round_trip (mount Sample.response)
           (Sample.click_on "07/01/2024") (Sample.click_on "nowhere")
           "07/01/2024" "nowhere" (Sample.point "2024-07-01" 115 116.5)
           eq_refl eq_refl); try reflexivity.
  apply list_elem_of_In. vm_compute. do 8 right. left. reflexivity.
Defined.

(** ** Labels *)

Lemma occurrences_app c a b :
  occurrences c (a +:+ b) = (occurrences c a + occurrences c b)%nat.
Proof. induction a as [|x a IH]; simpl; [reflexivity|]. rewrite IH. lia. Qed.

Lemma formatDate_shape s :
  (exists y m d,
     JS.split "-" s = [y; m; d] /\
     formatDate s = m +:+ String "/" (d +:+ String "/" y) /\
     occurrences "-" (formatDate s) = O) \/
  (length (JS.split "-" s) <> 3%nat /\ formatDate s = s).
Proof.
  destruct (decide (length (JS.split "-" s) = 3%nat)) as [L|L].
  - left. destruct (JS.split "-" s) as [|y [|m [|d [|? ?]]]] eqn:E; try discriminate.
    exists y, m, d. split; [reflexivity|].
    destruct (three_components_shape s y m d E) as (_ & Hy & Hm & Hd).
    rewrite (formatDate_parts s y m d E).
    change (m +:+ "/" +:+ d +:+ "/" +:+ y) with (m +:+ String "/" (d +:+ String "/" y)).
    split; [reflexivity|].
    rewrite occurrences_app. cbn [occurrences]. rewrite occurrences_app.
    cbn [occurrences]. rewrite Hy, Hm, Hd. reflexivity.
  - right. split; [exact L|]. now apply formatDate_fallback.
Qed.

(** X13: formatting is idempotent: a string that has been formatted is
    left unchanged by a second formatting, whatever the input was. *)
Theorem formatDate_idempotent (s : string) :
  formatDate (formatDate s) = formatDate s.
Proof.
  destruct (formatDate_shape s) as [(y & m & d & _ & _ & O)|[_ E]].
  - apply formatDate_fallback. rewrite split_length, O. discriminate.
  - now rewrite !E.
Qed.

(** X14: on dates of three dash-separated components whose month and day
    hold no slash, formatting loses nothing: two such dates with the same
    label are the same date. *)
Theorem formatDate_injective (s1 s2 : string) :
  dashed_date s1 -> dashed_date s2 ->
  formatDate s1 = formatDate s2 -> s1 = s2.
Proof.
  intros (y1 & m1 & d1 & E1 & M1 & D1) (y2 & m2 & d2 & E2 & M2 & D2) F.
  rewrite (formatDate_parts _ _ _ _ E1), (formatDate_parts _ _ _ _ E2) in F.
  change (m1 +:+ String "/" (d1 +:+ String "/" y1) =
          m2 +:+ String "/" (d2 +:+ String "/" y2)) in F.
  apply (f_equal (JS.split "/")) in F.
  rewrite !split_app in F by assumption.
  injection F as -> -> Y.
  apply (f_equal (join "/")) in Y. rewrite !split_join in Y. subst y2.
  destruct (three_components_shape _ _ _ _ E1) as (-> & _).
  destruct (three_components_shape _ _ _ _ E2) as (-> & _). reflexivity.
Qed.

Lemma formatDate_injective_witness :
  "2024-03-07" = "2024-" +:+ "03-07".
Proof.
  apply (formatDate_injective "2024-03-07" ("2024-" +:+ "03-07")).
  - exists "2024", "03", "07". repeat split; reflexivity.
  - exists "2024", "03", "07". repeat split; reflexivity.
  - reflexivity.
Defined.

Section FindFirst.
Context {A : Type}.

Lemma findIndex_first (p : A -> bool) (l : list A) (i : nat) (x : A) :
  l !! i = Some x -> p x = true ->
  (forall j y, (j < i)%nat -> l !! j = Some y -> p y = false) ->
  JS.findIndex p l = Z.of_nat i.
Proof.
  unfold JS.findIndex.
  assert (G : forall k,
            l !! i = Some x -> p x = true ->
            (forall j y, (j < i)%nat -> l !! j = Some y -> p y = false) ->
            JS.findIndex_from k p l = k + Z.of_nat i).
  { revert i. induction l as [|a l IH]; intros i k Hx Px Hlt; [discriminate|].
    destruct i as [|i]; simpl in *.
    - injection Hx as ->. rewrite Px. lia.
    - rewrite (Hlt O a ltac:(lia) eq_refl).
      rewrite (IH i (k + 1)); [lia | exact Hx | exact Px |].
      intros j y Hj Hy. apply (Hlt (S j) y); [lia | exact Hy]. }
  intros Hx Px Hlt. rewrite (G 0); [lia | assumption..].
Qed.
End FindFirst.

(** X15: when the dates of the series are pairwise different and each is
    made of three dash-separated components with no slash in month and day,
    a click on the label of the point at index [i], while no zoom range is
    set, stores the range computed around [i] itself and not around another
    point. *)
Theorem click_finds_its_point (s : HomePage) (i : nat) (d : HistoricalDataPoint) :
  NoDup (map date (historical s)) ->
  Forall (fun p => dashed_date (date p)) (historical s) ->
  zoomRange s = None ->
  historical s !! i = Some d ->
  onClick s (Some {| activeLabel := Some (formatDate (date d)) |})
    = Some (Some (zoom_around (historical s) (Z.of_nat i))).
Proof.
  intros N F Hz Hd.
  assert (Dd : dashed_date (date d)).
  { rewrite Forall_forall in F. apply F. eapply list_elem_of_lookup_2, Hd. }
  assert (Ne : JS.truthy_str (formatDate (date d)) = true).
  { destruct Dd as (y & m & dd & E & _). rewrite (formatDate_parts _ _ _ _ E).
    unfold JS.truthy_str. destruct m; reflexivity. }
  assert (I : JS.findIndex
                (fun p => String.eqb (formatDate (date p)) (formatDate (date d)))
                (historical s) = Z.of_nat i).
  { apply (findIndex_first _ _ _ d Hd); [apply String.eqb_refl|].
    intros j y Hj Hy. apply String.eqb_neq. intros Eq.
    assert (Dy : dashed_date (date y)).
    { rewrite Forall_forall in F. apply F. eapply list_elem_of_lookup_2, Hy. }
    pose proof (formatDate_injective _ _ Dy Dd Eq) as Ed.
    assert (j = i); [|lia].
    apply (NoDup_lookup _ _ _ (date d) N).
    - rewrite <- Ed. change (map date (historical s)) with (date <$> historical s).
      now rewrite list_lookup_fmap, Hy.
    - change (map date (historical s)) with (date <$> historical s).
      now rewrite list_lookup_fmap, Hd. }
  unfold onClick, clicked_label. cbn [activeLabel]. rewrite Ne, Hz, I.
  destruct (Z.eqb_spec (Z.of_nat i) (-1)); [lia | reflexivity].
Qed.

Lemma click_finds_its_point_witness :
  onClick (mount Sample.response) (Sample.click_on "05/01/2024")
  = Some (Some {| start := 2; stop := 9 |}).
Proof.
  etransitivity;
    [apply (click_finds_its_point (mount Sample.response) 5
              (Sample.point "2024-05-01" 109 110)) | reflexivity].
  - apply NoDup_ListNoDup. vm_compute.
    repeat (constructor; [cbn [In]; intuition discriminate|]). constructor.
  - vm_compute. repeat (constructor; [eexists _, _, _; repeat split; reflexivity|]).
    constructor.
  - reflexivity.
  - reflexivity.
Defined.

(** ** The raw bounds *)

Lemma min2_cases a b :
  JS.min2 a b = PrimFloat.nan \/ JS.min2 a b = a \/ JS.min2 a b = b.
Proof.
  unfold JS.min2.
  destruct (PrimFloat.is_nan a || PrimFloat.is_nan b); [now left|].
  destruct (PrimFloat.ltb b a); [now right; right|].
  destruct (PrimFloat.eqb b a && JS.is_neg_zero b); [now right; right | now right; left].
Qed.

Lemma max2_cases a b :
  JS.max2 a b = PrimFloat.nan \/ JS.max2 a b = a \/ JS.max2 a b = b.
Proof.
  unfold JS.max2.
  destruct (PrimFloat.is_nan a || PrimFloat.is_nan b); [now left|].
  destruct (PrimFloat.ltb a b); [now right; right|].
  destruct (PrimFloat.eqb b a && JS.is_neg_zero a); [now right; right | now right; left].
Qed.

Section Folds.
Variable op : JS.number -> JS.number -> JS.number.
Hypothesis op_cases : forall a b, op a b = PrimFloat.nan \/ op a b = a \/ op a b = b.
Hypothesis op_nan_l : forall b, op PrimFloat.nan b = PrimFloat.nan.
Hypothesis op_nan_r : forall a b, PrimFloat.is_nan b = true -> op a b = PrimFloat.nan.

Lemma fold_cases xs a :
  fold_left op xs a = PrimFloat.nan \/ fold_left op xs a = a \/ fold_left op xs a ∈ xs.
Proof.
  revert a. induction xs as [|x xs IH]; intros a; cbn [fold_left]; [now right; left|].
  destruct (IH (op a x)) as [H|[H|H]].
  - now left.
  - rewrite H. destruct (op_cases a x) as [E|[E|E]]; rewrite E.
    + now left.
    + now right; left.
    + right; right. left.
  - right; right. now right.
Qed.

Lemma fold_nan xs : fold_left op xs PrimFloat.nan = PrimFloat.nan.
Proof. induction xs as [|x xs IH]; cbn [fold_left]; [reflexivity|]. now rewrite op_nan_l. Qed.

Lemma fold_poisoned xs a x :
  x ∈ xs -> PrimFloat.is_nan x = true -> fold_left op xs a = PrimFloat.nan.
Proof.
  intros Hx Nx. revert a. induction xs as [|y xs IH]; intros a; [inversion Hx|].
  cbn [fold_left]. apply elem_of_cons in Hx as [<-|Hx].
  - rewrite op_nan_r by exact Nx. apply fold_nan.
  - now apply IH.
Qed.
End Folds.

Lemma is_nan_nan : PrimFloat.is_nan PrimFloat.nan = true.
Proof. reflexivity. Qed.

Lemma min2_nan_l b : JS.min2 PrimFloat.nan b = PrimFloat.nan.
Proof. unfold JS.min2. now rewrite is_nan_nan. Qed.

Lemma min2_nan_r a b : PrimFloat.is_nan b = true -> JS.min2 a b = PrimFloat.nan.
Proof. intros H. unfold JS.min2. now rewrite H, orb_true_r. Qed.

Lemma max2_nan_l b : JS.max2 PrimFloat.nan b = PrimFloat.nan.
Proof. unfold JS.max2. now rewrite is_nan_nan. Qed.

Lemma max2_nan_r a b : PrimFloat.is_nan b = true -> JS.max2 a b = PrimFloat.nan.
Proof. intros H. unfold JS.max2. now rewrite H, orb_true_r. Qed.

Lemma finite_not_special x :
  JS.isFinite x = true ->
  x <> PrimFloat.nan /\ x <> PrimFloat.infinity /\ x <> PrimFloat.neg_infinity.
Proof. intros H. repeat split; intros ->; vm_compute in H; discriminate. Qed.

(** X16: when a raw bound of the visible data is finite it is the actual
    or the predicted price of one of the visible points: the lower bound is
    a price of the data and so is the upper bound. *)
Theorem raw_bounds_attained (data : list HistoricalDataPoint) :
  (JS.isFinite (rawMin data) = true ->
   exists d, d ∈ data /\ (rawMin data = actual d \/ rawMin data = predicted d)) /\
  (JS.isFinite (rawMax data) = true ->
   exists d, d ∈ data /\ (rawMax data = actual d \/ rawMax data = predicted d)).
Proof.
  split; intros F; destruct (finite_not_special _ F) as (Nn & Np & Nm).
  - unfold rawMin, JS.Math_min in *.
    destruct (fold_cases JS.min2 min2_cases
                (map (fun d => fold_left JS.min2 [actual d; predicted d] PrimFloat.infinity)
                   data) PrimFloat.infinity) as [H|[H|H]]; [contradiction..|].
    apply list_elem_of_fmap in H. destruct H as (d & E & Hd). exists d. split; [exact Hd|].
    rewrite E in *. clear E.
    destruct (fold_cases JS.min2 min2_cases [actual d; predicted d] PrimFloat.infinity)
      as [H|[H|H]]; [contradiction..|].
    apply elem_of_cons in H as [H|H]; [now left|].
    apply list_elem_of_singleton in H. now right.
  - unfold rawMax, JS.Math_max in *.
    destruct (fold_cases JS.max2 max2_cases
                (map (fun d => fold_left JS.max2 [actual d; predicted d] PrimFloat.neg_infinity)
                   data) PrimFloat.neg_infinity) as [H|[H|H]]; [contradiction..|].
    apply list_elem_of_fmap in H. destruct H as (d & E & Hd). exists d. split; [exact Hd|].
    rewrite E in *. clear E.
    destruct (fold_cases JS.max2 max2_cases [actual d; predicted d] PrimFloat.neg_infinity)
      as [H|[H|H]]; [contradiction..|].
    apply elem_of_cons in H as [H|H]; [now left|].
    apply list_elem_of_singleton in H. now right.
Qed.

Lemma raw_bounds_attained_witness :
  exists d, d ∈ Sample.series /\
            (rawMax Sample.series = actual d \/ rawMax Sample.series = predicted d).
Proof. apply (proj2 (raw_bounds_attained Sample.series)). reflexivity. Defined.

(** X17: one price that is not a number spoils both bounds: when the
    actual or the predicted price of a visible point is NaN, both raw bounds
    are NaN, no margin is applied and the axis domain is [(NaN, NaN)],
    zoomed or not. *)
Theorem nan_price_spoils_domain (data : list HistoricalDataPoint)
    (zoom : option ZoomRange) (d : HistoricalDataPoint) :
  d ∈ data ->
  PrimFloat.is_nan (actual d) = true \/ PrimFloat.is_nan (predicted d) = true ->
  rawMin data = PrimFloat.nan /\ rawMax data = PrimFloat.nan /\
  YAxis_domain data zoom = Some (PrimFloat.nan, PrimFloat.nan).
Proof.
  intros Hd N.
  assert (Imin : JS.Math_min [actual d; predicted d] = PrimFloat.nan).
  { unfold JS.Math_min. cbn [fold_left]. destruct N as [N|N].
    - rewrite (min2_nan_r _ _ N). apply min2_nan_l.
    - apply min2_nan_r, N. }
  assert (Imax : JS.Math_max [actual d; predicted d] = PrimFloat.nan).
  { unfold JS.Math_max. cbn [fold_left]. destruct N as [N|N].
    - rewrite (max2_nan_r _ _ N). apply max2_nan_l.
    - apply max2_nan_r, N. }
  assert (Rmin : rawMin data = PrimFloat.nan).
  { unfold rawMin, JS.Math_min at 1.
    apply (fold_poisoned JS.min2 min2_nan_l min2_nan_r _ _ PrimFloat.nan);
      [|exact is_nan_nan].
    rewrite <- Imin. change (map ?f data) with (f <$> data).
    apply (list_elem_of_fmap_2 (fun d => JS.Math_min [actual d; predicted d])), Hd. }
  assert (Rmax : rawMax data = PrimFloat.nan).
  { unfold rawMax, JS.Math_max at 1.
    apply (fold_poisoned JS.max2 max2_nan_l max2_nan_r _ _ PrimFloat.nan);
      [|exact is_nan_nan].
    rewrite <- Imax. change (map ?f data) with (f <$> data).
    apply (list_elem_of_fmap_2 (fun d => JS.Math_max [actual d; predicted d])), Hd. }
  split; [exact Rmin|]. split; [exact Rmax|].
  unfold YAxis_domain. rewrite yBounds_not_finite; rewrite Rmin, Rmax; reflexivity.
Qed.

Lemma nan_price_spoils_domain_witness :
  YAxis_domain [Sample.point "2024-01-02" 100 101;
                Sample.point "2024-01-03" PrimFloat.nan 99] None
  = Some (PrimFloat.nan, PrimFloat.nan).
Proof.
  apply (nan_price_spoils_domain _ None (Sample.point "2024-01-03" PrimFloat.nan 99)).
  - right. left.
  - left. reflexivity.
Defined.

(** ** What every reachable state satisfies *)

Lemma rendered_zoom_week s : Rendered s -> zoom_week s.
Proof.
  intros [s' R|r|s' r R].
  - apply (reachable_week s' R).
  - intros z. discriminate.
  - apply (reachable_week s' R).
Qed.

Lemma rendered_windowStart s : Rendered s -> 0 <= windowStart s.
Proof.
  intros [s' R|r|s' r R].
  - apply (reachable_inv s' R).
  - cbn [first_render windowStart]. lia.
  - cbn [render_before_effect windowStart]. apply (reachable_inv s' R).
Qed.

(** X18: in every render, the first one and the one that receives a new
    result before the effect has run included, the window start is not
    negative and the current window index, which is the window start
    clamped to the last window, names an existing window; in the states
    between two events the clamp changes nothing; and a zoom range, when
    there is one, starts at 0 or later, is not empty and spans at most seven
    points. *)
Theorem every_render_has_valid_window (s : HomePage) :
  Rendered s ->
  0 <= currentWindow s < totalWindows s /\
  0 <= windowStart s /\
  (Reachable s -> currentWindow s = windowStart s) /\
  (forall r, zoomRange s = Some r ->
     0 <= start r /\ start r < stop r /\ stop r <= start r + 7).
Proof.
  intros R. pose proof (rendered_windowStart s R) as W.
  pose proof (totalWindows_of_pos (months s)) as T. fold (totalWindows s) in T.
  split; [unfold currentWindow; lia|]. split; [exact W|].
  split; [apply currentWindow_reachable|].
  intros r Hr. pose proof (rendered_zoom_ok s R r Hr).
  pose proof (rendered_zoom_week s R r Hr). lia.
Qed.

Lemma every_render_has_valid_window_witness :
  windowStart (render_before_effect (mount Sample.response) None) = 3 /\
  totalWindows (render_before_effect (mount Sample.response) None) = 1 /\
  0 <= currentWindow (render_before_effect (mount Sample.response) None) < 1.
Proof.
  split; [reflexivity|]. split; [reflexivity|].
  apply (every_render_has_valid_window
           (render_before_effect (mount Sample.response) None)).
  apply rendered_before_effect, reach_mount.
Defined.

Lemma filter_all {A} (p : A -> bool) (l : list A) :
  (forall x, x ∈ l -> p x = true) -> JS.filter p l = l.
Proof.
  induction l as [|x l IH]; intros H; simpl; [reflexivity|].
  rewrite (H x) by left. rewrite IH; [reflexivity|].
  intros y Hy. apply H. now right.
Qed.

(** X19: a series of four months or fewer is shown whole: in every
    reachable state with no zoom range set, the visible data is then the
    entire series. *)
Theorem short_series_shown_whole (s : HomePage) :
  Reachable s -> zoomRange s = None -> JS.len (months s) <= 4 ->
  visibleData s = historical s.
Proof.
  intros R Z L. destruct (reachable_inv s R) as [W _].
  destruct (visibleMonths_window s W) as (_ & V & _).
  rewrite (visibleData_windowed s (or_introl Z)). unfold windowedData.
  apply filter_all. intros d Hd. apply includes_spec.
  rewrite V. unfold window_ok, totalWindows, totalWindows_of, monthsToShow in W.
  replace (Z.to_nat (windowStart s)) with O by lia. rewrite drop_0.
  rewrite take_ge by (unfold JS.len in L; lia).
  unfold months. apply months_of_spec. eauto.
Qed.

Lemma short_series_shown_whole_witness :
  visibleData (mount Sample.short_response) = take 3 Sample.series.
Proof.
  apply (short_series_shown_whole _ (reach_mount Sample.short_response) eq_refl).
  vm_compute. discriminate.
Defined.
